(** * JCPZ-Digitalization: the select / process / export pipeline

    A shallow embedding of [processor.py], [exporter.py] and the controller
    of [main.py], with the properties of the pipeline proved over it.

    Conventions.
    - A Python [str] is a [string]; its characters are the code points below
      256 (ASCII and Latin-1), on which [lower] is Python's [str.lower].
      Such text can always be encoded as UTF-8; a [str] with a character the
      encoder of the file refuses (a lone surrogate) is outside the model.
    - Indices returned by [str.rfind] are [Z], with [-1] for "not found",
      as in Python.
    - A [dict] is an association list in insertion order.
    - A call that may raise returns a [result]: the result or the exception,
      a subclass of [Exception].
    - The calls a handler makes on the user interface of [ui.py] are its
      trace, a list of [App.call]; they return without an exception, and the
      answers of the dialogs are arguments of the handlers. *)

From Stdlib Require Import ZArith Ascii String List Bool Lia DecimalString.
From Stdlib Require SpecFloat.
From stdpp Require Import base decidable option list gmap strings.

Open Scope Z_scope.

(** ** Characters and strings *)

Definition LF : ascii := "010"%char.
Definition CR : ascii := "013"%char.
Definition COMMA : ascii := ","%char.
Definition DQUOTE : ascii := "034"%char.

Definition str1 (c : ascii) : string := String c EmptyString.

(** [str.lower] on one code point below 256: the capital letters are
    A..Z and the Latin-1 capitals U+00C0..U+00DE without the
    multiplication sign U+00D7; each is 32 below its small letter. *)
Definition is_capital (c : ascii) : bool :=
  let n := N_of_ascii c in
  ((65 <=? n) && (n <=? 90) || (192 <=? n) && (n <=? 222) && negb (n =? 215))%N.

Definition lower_char (c : ascii) : ascii :=
  if is_capital c then ascii_of_N (N_of_ascii c + 32) else c.

Fixpoint lower (s : string) : string :=
  match s with
  | EmptyString => EmptyString
  | String c s' => String (lower_char c) (lower s')
  end.

(** [s.rfind(c)] for a one-character [c]: the highest index of [c] in [s],
    or [-1]. [rfind_from] counts positions from [i]. *)
Fixpoint rfind_from (c : ascii) (s : string) (i : Z) : Z :=
  match s with
  | EmptyString => -1
  | String a s' =>
      let r := rfind_from c s' (i + 1) in
      if 0 <=? r then r else if Ascii.eqb a c then i else -1
  end.

Definition rfind (c : ascii) (s : string) : Z := rfind_from c s 0.

(** The slices [p[:k]], [p[k:]] and [p[k:k+1]] for an index [0 <= k]. *)
Fixpoint take_str (n : nat) (s : string) : string :=
  match n, s with
  | S n', String c s' => String c (take_str n' s')
  | _, _ => EmptyString
  end.

Fixpoint drop_str (n : nat) (s : string) : string :=
  match n, s with
  | S n', String _ s' => drop_str n' s'
  | _, _ => s
  end.

Definition slice_to (p : string) (k : Z) : string := take_str (Z.to_nat k) p.
Definition slice_from (p : string) (k : Z) : string := drop_str (Z.to_nat k) p.
Definition slice1 (p : string) (k : Z) : string := take_str 1 (slice_from p k).

(** The decimal text of an integer; [str(n)] for the counts the program
    prints, which are lengths of lists. *)
Definition str_int (z : Z) : string := NilZero.string_of_int (Z.to_int z).
Definition str_nat (n : nat) : string := str_int (Z.of_nat n).

(** ** os.path *)

Module ospath.

Definition extsep : ascii := "."%char.

Section Flavour.

(** [posixpath] has [sep = '/'] and no [altsep]; [ntpath] has [sep = '\']
    and [altsep = '/']. *)
Variable sep : ascii.
Variable altsep : option ascii.

(** The [while filenameIndex < dotIndex] loop of [genericpath._splitext];
    [n] counts the iterations that remain. *)
Fixpoint skip_leading_dots (p : string) (dotIndex : Z) (n : nat)
    (filenameIndex : Z) : string * string :=
  match n with
  | O => (p, EmptyString)
  | S n' =>
      if filenameIndex <? dotIndex then
        if negb (String.eqb (slice1 p filenameIndex) (str1 extsep))
        then (slice_to p dotIndex, slice_from p dotIndex)
        else skip_leading_dots p dotIndex n' (filenameIndex + 1)
      else (p, EmptyString)
  end.

Definition splitext (p : string) : string * string :=
  let sepIndex := rfind sep p in
  let sepIndex :=
    match altsep with
    | Some a => Z.max sepIndex (rfind a p)
    | None => sepIndex
    end in
  let dotIndex := rfind extsep p in
  if sepIndex <? dotIndex then
    let filenameIndex := sepIndex + 1 in
    skip_leading_dots p dotIndex (Z.to_nat (dotIndex - filenameIndex))
      filenameIndex
  else (p, EmptyString).

End Flavour.

(** [posixpath.basename]: [i = p.rfind('/') + 1; return p[i:]]. *)
Definition posix_basename (p : string) : string :=
  let i := rfind "/"%char p + 1 in slice_from p i.

End ospath.

(** ** Python values, exceptions and the run-time library *)

(** A float is an IEEE binary64 value; its text is left to the platform. *)
Definition pyfloat : Type := SpecFloat.spec_float.

(** The scalars a record holds. *)
Inductive value :=
| VStr (s : string)
| VInt (z : Z)
| VFloat (f : pyfloat).

(** A [dict] with [str] keys, in insertion order. The keys of a Python
    dict are distinct; no property below depends on it. *)
Definition dict : Type := list (string * value).

(** An element of the processed data: a [dict], or something that is not. *)
Inductive pyobj :=
| PyDict (d : dict)
| PyValue (v : value).

(** The subclasses of [Exception] that occur, each with the text [str(e)]
    gives. [OpenError] is what [open] raised: an [OSError], or a
    [ValueError] for a path with a NUL character; the program only shows its
    text. *)
Inductive exn :=
| ValueError (msg : string)
| AttributeError (msg : string)
| IndexError (msg : string)
| OSError (msg : string)
| OpenError (msg : string)
| OtherException (msg : string).

Definition exn_str (e : exn) : string :=
  match e with
  | ValueError m | AttributeError m | IndexError m | OSError m
  | OpenError m | OtherException m => m
  end.

Inductive result (A : Type) :=
| Return (a : A)
| Raise (e : exn).

Arguments Return {A} a.
Arguments Raise {A} e.

#[global] Instance result_ret : MRet result := fun A a => Return a.
#[global] Instance result_bind : MBind result := fun A B f m =>
  match m with
  | Return a => f a
  | Raise e => Raise e
  end.

(** What the program takes from the Python library and the platform and
    this development leaves abstract. *)
Record runtime := mkRuntime {
  (** [os.sep] and [os.altsep] *)
  sep : ascii;
  altsep : option ascii;
  (** [os.path.basename] *)
  basename : string -> string;
  (** [str(x)] for a float [x] *)
  float_str : pyfloat -> string;
  (** [round(file_size / 1024, 2)] *)
  size_kb : Z -> pyfloat;
  (** the text [csv.DictWriter] builds from the set of fields that are not
      in [fieldnames] *)
  wrong_fields_text : list string -> string;
  (** [sys.get_int_max_str_digits()]: 0 for no limit, otherwise at least
      640; 4300 unless it was set *)
  int_max_str_digits : nat
}.

(** [str(z)] for an [int] in the data: a [ValueError] when there is a limit
    and [z] has more decimal digits than it allows, that is when [10 ^ limit
    <= |z|]. No limit below 640 digits can be set. *)
Definition int_digits_allowed (rt : runtime) : nat :=
  Nat.max (int_max_str_digits rt) 640.

Definition exceeds_digits (rt : runtime) (z : Z) : bool :=
  negb (int_max_str_digits rt =? 0)%nat
  && (10 ^ Z.of_nat (int_digits_allowed rt) <=? Z.abs z).

Definition str_int_limited (rt : runtime) (z : Z) : result string :=
  if exceeds_digits rt z then
    Raise (ValueError
             ("Exceeds the limit (" +:+ str_nat (int_max_str_digits rt)
              +:+ " digits) for integer string conversion; "
              +:+ "use sys.set_int_max_str_digits() to increase the limit"))
  else Return (str_int z).

(** [type(v).__name__] *)
Definition type_name (v : value) : string :=
  match v with
  | VStr _ => "str"
  | VInt _ => "int"
  | VFloat _ => "float"
  end.

Definition no_attribute (v : value) (name : string) : exn :=
  AttributeError ("'" +:+ type_name v +:+ "' object has no attribute '"
                  +:+ name +:+ "'").

(** Truth value of a list or a string: it is not empty. *)
Definition truthy {A} (l : list A) : bool :=
  match l with
  | [] => false
  | _ :: _ => true
  end.

Definition truthy_str (s : string) : bool :=
  match s with
  | EmptyString => false
  | String _ _ => true
  end.

(** [d.keys()], [d.get(k)], [set(d.keys())] and [isinstance(o, dict)]. *)
Definition dict_keys (d : dict) : list string := map fst d.

Fixpoint dict_get (d : dict) (k : string) : option value :=
  match d with
  | [] => None
  | (k', v) :: d' => if String.eqb k' k then Some v else dict_get d' k
  end.

Definition is_dict (o : pyobj) : bool :=
  match o with
  | PyDict _ => true
  | PyValue _ => false
  end.

(** [o.keys()], an [AttributeError] when [o] is no dict. *)
Definition keys (o : pyobj) : result (list string) :=
  match o with
  | PyDict d => Return (dict_keys d)
  | PyValue v => Raise (no_attribute v "keys")
  end.

Definition key_set (ks : list string) : gset string := list_to_set ks.

(** [l[0]], an [IndexError] when [l] is empty. *)
Definition first_item {A} (l : list A) : result A :=
  match l with
  | x :: _ => Return x
  | [] => Raise (IndexError "list index out of range")
  end.

(** ** The file system

    The regular files, by path, with their text; and, for each path, the
    text of the exception that [open(path, 'w')] raises there, if any.
    Paths are taken as they are written: two spellings or links of one file
    are two entries, so what is stated of a file is stated of the path it
    was written under, and nothing is stated of other paths. *)
Record filesystem := mkFS {
  fs_files : gmap string string;
  fs_open_error : string -> option string
}.

Definition isfile (fs : filesystem) (p : string) : bool :=
  bool_decide (is_Some (fs_files fs !! p)).

Definition write_file (fs : filesystem) (p text : string) : filesystem :=
  {| fs_files := <[p := text]> (fs_files fs);
     fs_open_error := fs_open_error fs |}.

(** ** processor.py *)

Module ImageProcessor.

Definition valid_extensions : gset string :=
  {[ ".png"; ".jpg"; ".jpeg" ]}.

Definition validate_image_file (rt : runtime) (fs : filesystem)
    (file_path : string) : bool :=
  let file_ext := lower (snd (ospath.splitext (sep rt) (altsep rt) file_path)) in
  bool_decide (file_ext ∈ valid_extensions) && isfile fs file_path.

(** What the mock processor observes. Time passes between its calls and the
    files may change, so each observation is indexed by the number of the
    call: the size of a file then ([os.path.getsize], which raises for a path
    it cannot stat) and the text of the local time then ([time.strftime]). *)
Record world := mkWorld {
  calls : nat;
  getsize : nat -> string -> result Z;
  strftime : nat -> string
}.

Definition next_call (w : world) : world :=
  {| calls := S (calls w); getsize := getsize w; strftime := strftime w |}.

(** The float [0.95]. *)
Definition mock_confidence_score : pyfloat :=
  SpecFloat.S754_finite false 8556839292003942 (-53).

(** The mock processor. [time.sleep] only lets time pass. *)
Definition process_image (rt : runtime) (file_path : string) (w : world)
    : result pyobj * world :=
  let filename := basename rt file_path in
  match getsize w (calls w) file_path with
  | Raise e => (Raise e, next_call w)
  | Return file_size =>
      let extracted_data :=
        [ ("filename", VStr filename);
          ("file_path", VStr file_path);
          ("file_size_kb", VFloat (size_kb rt file_size));
          ("processed_timestamp", VStr (strftime w (calls w)));
          ("mock_width", VInt 1920);
          ("mock_height", VInt 1080);
          ("mock_detected_objects", VStr "person, car, tree");
          ("mock_confidence_score", VFloat mock_confidence_score) ] in
      (Return (PyDict extracted_data), next_call w)
  end.

End ImageProcessor.

(** ** The csv module: [csv.writer] with the [excel] dialect, and
    [csv.DictWriter] with [restval = ''] and [extrasaction = 'raise'] *)

Module csv.

Definition delimiter : ascii := COMMA.
Definition quotechar : ascii := DQUOTE.
Definition lineterminator : string := String CR (String LF EmptyString).

(** A field is written as it is when it is a [str], through [str()]
    otherwise, which raises for an [int] of too many digits. *)
Definition field_str (rt : runtime) (v : value) : result string :=
  match v with
  | VStr s => Return s
  | VInt z => str_int_limited rt z
  | VFloat f => Return (float_str rt f)
  end.

(** The fields of a row, converted one after the other. *)
Fixpoint fields_str (rt : runtime) (row : list value) : result (list string) :=
  match row with
  | [] => Return []
  | v :: rest =>
      s ← field_str rt v;
      fields ← fields_str rt rest;
      Return (s :: fields)
  end.

(** The characters that make [QUOTE_MINIMAL] quote a field: the delimiter,
    the quote character and the characters of the line terminator. *)
Definition is_special (c : ascii) : bool :=
  Ascii.eqb c delimiter || Ascii.eqb c quotechar
  || Ascii.eqb c CR || Ascii.eqb c LF.

Fixpoint any_special (s : string) : bool :=
  match s with
  | EmptyString => false
  | String c s' => is_special c || any_special s'
  end.

(** The characters of a field with each quote character doubled. *)
Fixpoint copy_field (s : string) : string :=
  match s with
  | EmptyString => EmptyString
  | String c s' =>
      if Ascii.eqb c quotechar
      then String quotechar (String quotechar (copy_field s'))
      else String c (copy_field s')
  end.

Definition join_append (field : string) (quoted : bool) : string :=
  if quoted || any_special field
  then String quotechar (copy_field field +:+ str1 quotechar)
  else copy_field field.

Fixpoint join_rest (fields : list string) : string :=
  match fields with
  | [] => EmptyString
  | f :: rest => String delimiter (join_append f false +:+ join_rest rest)
  end.

Definition join_record (fields : list string) : string :=
  match fields with
  | [] => EmptyString
  | f :: rest => join_append f false +:+ join_rest rest
  end.

(** [writer.writerow]: a record of one empty field is written quoted. *)
Definition writerow (fields : list string) : string :=
  let rec := join_record fields in
  let rec :=
    if (0 <? length fields)%nat && (String.length rec =? 0)%nat
    then join_append EmptyString true
    else rec in
  rec +:+ lineterminator.

Definition restval : value := VStr EmptyString.

Definition _dict_to_list (rt : runtime) (fieldnames : list string)
    (rowdict : pyobj) : result (list value) :=
  ks ← keys rowdict;
  let wrong_fields :=
    List.filter (fun k => negb (bool_decide (k ∈ fieldnames))) ks in
  if truthy wrong_fields then
    Raise (ValueError ("dict contains fields not in fieldnames: "
                       +:+ wrong_fields_text rt wrong_fields))
  else
    match rowdict with
    | PyDict d =>
        Return (map (fun key => default restval (dict_get d key)) fieldnames)
    | PyValue v => Raise (no_attribute v "get")
    end.

(** [DictWriter.writerow], appending to the text [out] of the file; a row
    is written once all its fields are converted. *)
Definition dict_writerow (rt : runtime) (fieldnames : list string)
    (rowdict : pyobj) (out : string) : result unit * string :=
  match row ← _dict_to_list rt fieldnames rowdict; fields_str rt row with
  | Raise e => (Raise e, out)
  | Return fields => (Return tt, out +:+ writerow fields)
  end.

Definition writeheader (rt : runtime) (fieldnames : list string)
    (out : string) : result unit * string :=
  let header := PyDict (map (fun k => (k, VStr k)) fieldnames) in
  dict_writerow rt fieldnames header out.

Fixpoint writerows (rt : runtime) (fieldnames : list string)
    (rowdicts : list pyobj) (out : string) : result unit * string :=
  match rowdicts with
  | [] => (Return tt, out)
  | rowdict :: rest =>
      match dict_writerow rt fieldnames rowdict out with
      | (Raise e, out') => (Raise e, out')
      | (Return _, out') => writerows rt fieldnames rest out'
      end
  end.

End csv.

(** ** exporter.py *)

Module CSVExporter.

(** The text the [with open(...)] block leaves in the file, and how the
    block ends. *)
Definition write_csv (rt : runtime) (data : list pyobj)
    : result unit * string :=
  match first ← first_item data; keys first with
  | Raise e => (Raise e, EmptyString)
  | Return fieldnames =>
      match csv.writeheader rt fieldnames EmptyString with
      | (Raise e, out) => (Raise e, out)
      | (Return _, out) => csv.writerows rt fieldnames data out
      end
  end.

Definition export_to_csv (rt : runtime) (data : list pyobj)
    (file_path : string) (fs : filesystem) : result unit * filesystem :=
  if negb (truthy data) then (Raise (ValueError "No data to export"), fs)
  else
    match fs_open_error fs file_path with
    | Some msg => (Raise (OpenError msg), fs)
    | None =>
        let '(r, text) := write_csv rt data in
        (r, write_file fs file_path text)
    end.

(** [all(set(item.keys()) == first_keys for item in items)] *)
Fixpoint all_keys_equal (first_keys : gset string) (items : list pyobj)
    : result bool :=
  match items with
  | [] => Return true
  | item :: rest =>
      ks ← keys item;
      if bool_decide (key_set ks = first_keys)
      then all_keys_equal first_keys rest
      else Return false
  end.

(** [data] is a list here, so [isinstance(data, list)] holds. *)
Definition validate_data (data : list pyobj) : result bool :=
  if negb (truthy data) then Return false
  else if negb (forallb is_dict data) then Return false
  else if (1 <? length data)%nat then
    first ← first_item data;
    ks ← keys first;
    let first_keys := key_set ks in
    same ← all_keys_equal first_keys (drop 1 data);
    if negb same then Return false else Return true
  else Return true.

End CSVExporter.

(** ** Reading delimited text back

    The reader of comma-separated text that the round trip is stated with:
    fields are separated by commas; a record ends at CR LF, CR or LF; a field
    in double quotes may hold commas, line breaks and doubled quotes; an
    empty line is a record of no fields. It is the automaton of [csv.reader]
    for the [excel] dialect over a file opened with [newline=''], one
    character at a time. *)

Module DelimitedText.

Inductive state :=
| START_RECORD
| AFTER_CR
| START_FIELD
| IN_FIELD
| IN_QUOTED_FIELD
| QUOTE_IN_QUOTED_FIELD.

Definition is_newline (c : ascii) : bool := Ascii.eqb c CR || Ascii.eqb c LF.

Definition after_newline (c : ascii) : state :=
  if Ascii.eqb c CR then AFTER_CR else START_RECORD.

(** The result of one character: the next state, the field and the fields
    read so far, and the records completed. *)
Definition outcome : Type := state * string * list string * list (list string).

Definition add_char (field : string) (c : ascii) : string :=
  field +:+ str1 c.

Definition end_record (field : string) (fields : list string) (c : ascii)
    : outcome :=
  (after_newline c, EmptyString, [], [fields ++ [field]]).

Definition start_field (field : string) (fields : list string) (c : ascii)
    : outcome :=
  if is_newline c then end_record field fields c
  else if Ascii.eqb c DQUOTE then (IN_QUOTED_FIELD, field, fields, [])
  else if Ascii.eqb c COMMA then (START_FIELD, EmptyString, fields ++ [field], [])
  else (IN_FIELD, add_char field c, fields, []).

Definition start_record (field : string) (fields : list string) (c : ascii)
    : outcome :=
  if is_newline c then (after_newline c, EmptyString, [], [[]])
  else start_field field fields c.

Definition step (st : state) (field : string) (fields : list string)
    (c : ascii) : outcome :=
  match st with
  | START_RECORD => start_record field fields c
  | AFTER_CR =>
      if Ascii.eqb c LF then (START_RECORD, EmptyString, [], [])
      else start_record field fields c
  | START_FIELD => start_field field fields c
  | IN_FIELD =>
      if is_newline c then end_record field fields c
      else if Ascii.eqb c COMMA
      then (START_FIELD, EmptyString, fields ++ [field], [])
      else (IN_FIELD, add_char field c, fields, [])
  | IN_QUOTED_FIELD =>
      if Ascii.eqb c DQUOTE then (QUOTE_IN_QUOTED_FIELD, field, fields, [])
      else (IN_QUOTED_FIELD, add_char field c, fields, [])
  | QUOTE_IN_QUOTED_FIELD =>
      if Ascii.eqb c DQUOTE then (IN_QUOTED_FIELD, add_char field c, fields, [])
      else if Ascii.eqb c COMMA
      then (START_FIELD, EmptyString, fields ++ [field], [])
      else if is_newline c then end_record field fields c
      else (IN_FIELD, add_char field c, fields, [])
  end.

(** At the end of the text a record that was begun is completed. *)
Definition at_end (st : state) (field : string) (fields : list string)
    : list (list string) :=
  match st with
  | START_RECORD | AFTER_CR => []
  | START_FIELD | IN_FIELD | IN_QUOTED_FIELD | QUOTE_IN_QUOTED_FIELD =>
      [fields ++ [field]]
  end.

Fixpoint parse (st : state) (field : string) (fields : list string)
    (s : string) : list (list string) :=
  match s with
  | EmptyString => at_end st field fields
  | String c s' =>
      let '(st', field', fields', records) := step st field fields c in
      records ++ parse st' field' fields' s'
  end.

Definition read_rows (text : string) : list (list string) :=
  parse START_RECORD EmptyString [] text.

End DelimitedText.

(** ** main.py: the controller *)

Module App.

(** The calls the controller makes on its collaborators: the methods of
    [ImageProcessorUI], and the entry into the processor and the exporter. *)
Inductive call :=
| show_file_dialog
| show_save_dialog (default_filename : string)
| show_warning (title message : string)
| show_error (title message : string)
| show_info (title message : string)
| update_status (message : string)
| update_file_list (file_paths : list string)
| setup_progress_bar (maximum : nat)
| update_progress (value : nat)
| enable_button (button_name : string)
| disable_button (button_name : string)
| process_image (file_path : string)
| export_to_csv (data : list pyobj) (file_path : string).

(** The application state. *)
Record app := mkApp {
  selected_files : list string;
  processed_data : list pyobj
}.

Definition init : app := {| selected_files := []; processed_data := [] |}.

Definition newline : string := str1 LF.

Section Controller.

Variable rt : runtime.

(** [files] is what the file dialog returns. *)
Definition handle_select_files (files : list string) (fs : filesystem)
    (self : app) : app * list call :=
  if truthy files then
    let valid_files :=
      List.filter (ImageProcessor.validate_image_file rt fs) files in
    let skipped :=
      if negb (length valid_files =? length files)%nat then
        let invalid_count := (length files - length valid_files)%nat in
        [show_warning "Invalid Files"
           (str_nat invalid_count
            +:+ " file(s) were skipped (not valid image files)")]
      else [] in
    if truthy valid_files then
      ({| selected_files := valid_files; processed_data := [] |},
       show_file_dialog :: skipped ++
       [update_file_list valid_files;
        enable_button "process";
        disable_button "export";
        update_status (str_nat (length valid_files) +:+ " files selected")])
    else
      (self,
       show_file_dialog :: skipped ++
       [show_warning "No Valid Files" "No valid image files were selected."])
  else (self, [show_file_dialog]).

(** The item processor: any function of the path that returns an object or
    raises, and may depend on and change a state of its own. *)
Context {World : Type}.
Variable processor : string -> World -> result pyobj * World.

(** The body of [for idx, file_path in enumerate(self.selected_files, 1)],
    for the files that remain; [data] is [self.processed_data]. *)
Fixpoint process_loop (total idx : nat) (files : list string)
    (data : list pyobj) (w : World) : list pyobj * World * list call :=
  match files with
  | [] => (data, w, [])
  | file_path :: rest =>
      let filename := basename rt file_path in
      let status :=
        update_status ("Processing " +:+ str_nat idx +:+ "/"
                       +:+ str_nat total +:+ ": " +:+ filename) in
      let '(res, w) := processor file_path w in
      let '(data, reported) :=
        match res with
        | Return r => (data ++ [r], [])
        | Raise e =>
            (data,
             [show_error "Processing Error"
                ("Error processing " +:+ filename +:+ ":" +:+ newline
                 +:+ exn_str e)])
        end in
      let '(data, w, calls) := process_loop total (S idx) rest data w in
      (data, w,
       status :: process_image file_path :: reported
       ++ update_progress idx :: calls)
  end.

Definition handle_process_images (self : app) (w : World)
    : app * World * list call :=
  if negb (truthy (selected_files self)) then
    (self, w, [show_warning "No Files" "Please select files first."])
  else
    let total := length (selected_files self) in
    let '(data, w, looped) :=
      process_loop total 1 (selected_files self) [] w in
    let finished :=
      if truthy data then
        [enable_button "export";
         update_status ("Processing complete! " +:+ str_nat (length data)
                        +:+ " images processed.");
         show_info "Success"
           ("Successfully processed " +:+ str_nat (length data)
            +:+ " images!")]
      else [update_status "Processing failed - no data extracted."] in
    ({| selected_files := selected_files self; processed_data := data |}, w,
     [setup_progress_bar total;
      disable_button "process"; disable_button "select";
      disable_button "export"]
     ++ looped
     ++ [enable_button "select"; enable_button "process"]
     ++ finished).

(** [chosen] is what the save dialog returns if it is shown. The first
    component is how the handler ends: an exception of [validate_data] would
    leave it, one of [export_to_csv] is caught. *)
Definition handle_export_csv (chosen : string) (self : app)
    (fs : filesystem) : result unit * app * filesystem * list call :=
  if negb (truthy (processed_data self)) then
    (Return tt, self, fs,
     [show_warning "No Data" "Please process images first."])
  else
    match CSVExporter.validate_data (processed_data self) with
    | Raise e => (Raise e, self, fs, [])
    | Return false =>
        (Return tt, self, fs,
         [show_error "Invalid Data"
            "Processed data is not in valid format for export."])
    | Return true =>
        let file_path := chosen in
        if negb (truthy_str file_path) then
          (Return tt, self, fs, [show_save_dialog "processed_images.csv"])
        else
          let entered :=
            [show_save_dialog "processed_images.csv";
             export_to_csv (processed_data self) file_path] in
          match CSVExporter.export_to_csv rt (processed_data self)
                  file_path fs with
          | (Return _, fs) =>
              let filename := basename rt file_path in
              (Return tt, self, fs,
               entered ++
               [update_status ("Data exported to " +:+ filename);
                show_info "Success"
                  ("Data successfully exported to:" +:+ newline
                   +:+ file_path)])
          | (Raise e, fs) =>
              (Return tt, self, fs,
               entered ++
               [show_error "Export Error"
                  ("Failed to export data:" +:+ newline +:+ exn_str e)])
          end
    end.

End Controller.

End App.

(** ** The vocabulary of the properties *)

(** *** Extensions compared without regard to case *)

(** Two characters are the same letter when they are equal or one is the
    capital of the other. *)
Definition same_letter (a b : ascii) : Prop :=
  a = b
  \/ (is_capital a = true /\ N_of_ascii b = (N_of_ascii a + 32)%N)
  \/ (is_capital b = true /\ N_of_ascii a = (N_of_ascii b + 32)%N).

Fixpoint equal_ignoring_case (s t : string) : Prop :=
  match s, t with
  | EmptyString, EmptyString => True
  | String a s', String b t' => same_letter a b /\ equal_ignoring_case s' t'
  | _, _ => False
  end.

Definition accepted_extensions : list string := [".png"; ".jpg"; ".jpeg"].

Fixpoint no_capitals (s : string) : bool :=
  match s with
  | EmptyString => true
  | String c s' => negb (is_capital c) && no_capitals s'
  end.

Definition extension (rt : runtime) (path : string) : string :=
  snd (ospath.splitext (sep rt) (altsep rt) path).

Definition has_accepted_extension (rt : runtime) (path : string) : Prop :=
  exists e, In e accepted_extensions
            /\ equal_ignoring_case (extension rt path) e.

Definition existing_file (fs : filesystem) (path : string) : Prop :=
  exists text, fs_files fs !! path = Some text.

(** *** Uniform records *)

(** A list is fit for export when it is not empty, each element is a
    mapping, and any two of them have the same set of keys. *)
Definition fit_for_export (data : list pyobj) : Prop :=
  data <> []
  /\ (forall o, In o data -> exists d, o = PyDict d)
  /\ (forall d1 d2, In (PyDict d1) data -> In (PyDict d2) data ->
        key_set (dict_keys d1) = key_set (dict_keys d2)).



(** *** Reading a trace of calls *)

Definition invocations (tr : list App.call) : list string :=
  omap (fun c => match c with App.process_image p => Some p | _ => None end) tr.

Definition progress_reports (tr : list App.call) : list nat :=
  omap (fun c => match c with App.update_progress i => Some i | _ => None end)
       tr.

Definition errors_reported (tr : list App.call) : list (string * string) :=
  omap (fun c => match c with App.show_error t m => Some (t, m) | _ => None end)
       tr.

Definition warnings (tr : list App.call) : list (string * string) :=
  omap (fun c => match c with App.show_warning t m => Some (t, m) | _ => None end)
       tr.

(** The invocations of the processor and the progress reports, in the order
    they happen. *)
Definition attempts_and_progress (tr : list App.call) : list App.call :=
  List.filter (fun c => match c with
                        | App.process_image _ | App.update_progress _ => true
                        | _ => false
                        end) tr.

(** One attempt per item, and the progress report that follows it. *)
Fixpoint attempt_then_progress (idx : nat) (files : list string)
    : list App.call :=
  match files with
  | [] => []
  | p :: rest =>
      App.process_image p :: App.update_progress idx
      :: attempt_then_progress (S idx) rest
  end.

Section Attempts.

Context {World : Type}.
Variable processor : string -> World -> result pyobj * World.

(** The processor run on each path in turn, with what each run gave. *)
Fixpoint attempts (files : list string) (w : World)
    : list (string * result pyobj) :=
  match files with
  | [] => []
  | p :: rest =>
      let '(r, w') := processor p w in (p, r) :: attempts rest w'
  end.

End Attempts.

Definition successes (l : list (string * result pyobj)) : list pyobj :=
  omap (fun a => match snd a with Return o => Some o | Raise _ => None end) l.

Definition failures (l : list (string * result pyobj)) : list (string * exn) :=
  omap (fun a => match snd a with
                 | Return _ => None
                 | Raise e => Some (fst a, e)
                 end) l.

(** How the controller words the failure of one item. *)
Definition failure_report (rt : runtime) (f : string * exn) : string * string :=
  ("Processing Error",
   "Error processing " +:+ basename rt (fst f) +:+ ":" +:+ App.newline
   +:+ exn_str (snd f)).

(** A state of the controller is consistent when an empty selection comes
    with an empty batch; every state the handlers reach from [App.init] is. *)
Definition consistent (self : App.app) : Prop :=
  App.selected_files self = [] -> App.processed_data self = [].

(** *** Instances for the examples *)

(** POSIX paths; every float prints as [0.95] and every size is [0.0] KB. *)
Definition posix : runtime :=
  {| sep := "/"%char;
     altsep := None;
     basename := ospath.posix_basename;
     float_str := fun _ => "0.95";
     size_kb := fun _ => SpecFloat.S754_zero false;
     wrong_fields_text := String.concat ", ";
     int_max_str_digits := 4300 |}.

(** A file system with two images and a text file; every path can be
    written but those under [/ro/]. *)
Definition disk : filesystem :=
  {| fs_files := {[ "/in/a.png" := "A"; "/in/b.JPG" := "B";
                    "/in/notes.txt" := "N" ]};
     fs_open_error := fun p =>
       if String.prefix "/ro/" p then Some "Permission denied" else None |}.

(** A processor that counts its runs and fails on [/in/b.JPG]. *)
Definition flaky (p : string) (runs : nat) : result pyobj * nat :=
  if String.eqb p "/in/b.JPG"
  then (Raise (OSError "cannot read"), S runs)
  else (Return (PyDict [("file_path", VStr p); ("run", VInt (Z.of_nat runs))]),
        S runs).

(** Two records of one schema, keys in different orders, with a comma, a
    quote and a line break in the values. *)
Definition two_records : list pyobj :=
  [ PyDict [("name", VStr "a,b"); ("n", VInt 1)];
    PyDict [("n", VInt (-2));
            ("name", VStr (String DQUOTE (String CR (String LF "x"))))] ].

(** ** ui.py: the widgets

    What the methods of [ImageProcessorUI] leave in the widgets: the state of
    the three buttons, the entries of the list box, the two labels and the
    progress bar. The message boxes and the dialogs change none of them. *)

Module UI.

Inductive button_state := NORMAL | DISABLED.

Record widgets := mkWidgets {
  select_btn : button_state;
  process_btn : button_state;
  export_btn : button_state;
  file_listbox : list string;
  file_count_label : string;
  progress_maximum : nat;
  progress_value : nat;
  status_label : string
}.

(** [_create_ui]: the select button is active, the other two are not; a
    [ttk.Progressbar] starts at value 0 with maximum 100. *)
Definition created : widgets :=
  {| select_btn := NORMAL; process_btn := DISABLED; export_btn := DISABLED;
     file_listbox := []; file_count_label := "No files selected";
     progress_maximum := 100; progress_value := 0; status_label := "Ready" |}.

(** [button_map[button_name].config(state=st)] when the name is one of the
    map, nothing otherwise. *)
Definition config_button (button_name : string) (st : button_state)
    (w : widgets) : widgets :=
  if String.eqb button_name "select" then
    mkWidgets st (process_btn w) (export_btn w) (file_listbox w)
      (file_count_label w) (progress_maximum w) (progress_value w)
      (status_label w)
  else if String.eqb button_name "process" then
    mkWidgets (select_btn w) st (export_btn w) (file_listbox w)
      (file_count_label w) (progress_maximum w) (progress_value w)
      (status_label w)
  else if String.eqb button_name "export" then
    mkWidgets (select_btn w) (process_btn w) st (file_listbox w)
      (file_count_label w) (progress_maximum w) (progress_value w)
      (status_label w)
  else w.

Definition enable_button (button_name : string) : widgets -> widgets :=
  config_button button_name NORMAL.

Definition disable_button (button_name : string) : widgets -> widgets :=
  config_button button_name DISABLED.

(** The list box is emptied and gets the base name of each path at its
    end; the label tells their number. *)
Definition update_file_list (rt : runtime) (file_paths : list string)
    (w : widgets) : widgets :=
  let listbox :=
    fold_left (fun box file_path => box ++ [basename rt file_path])
              file_paths [] in
  let count := length file_paths in
  let label :=
    str_nat count +:+ " file"
    +:+ (if negb (count =? 1)%nat then "s" else EmptyString)
    +:+ " selected" in
  mkWidgets (select_btn w) (process_btn w) (export_btn w) listbox label
    (progress_maximum w) (progress_value w) (status_label w).

Definition update_status (message : string) (w : widgets) : widgets :=
  mkWidgets (select_btn w) (process_btn w) (export_btn w) (file_listbox w)
    (file_count_label w) (progress_maximum w) (progress_value w) message.

Definition setup_progress_bar (maximum : nat) (w : widgets) : widgets :=
  mkWidgets (select_btn w) (process_btn w) (export_btn w) (file_listbox w)
    (file_count_label w) maximum 0 (status_label w).

Definition update_progress (value : nat) (w : widgets) : widgets :=
  mkWidgets (select_btn w) (process_btn w) (export_btn w) (file_listbox w)
    (file_count_label w) (progress_maximum w) value (status_label w).

Definition reset_progress (w : widgets) : widgets :=
  mkWidgets (select_btn w) (process_btn w) (export_btn w) (file_listbox w)
    (file_count_label w) (progress_maximum w) 0 (status_label w).

(** One call of the controller, on the widgets. *)
Definition run (rt : runtime) (c : App.call) (w : widgets) : widgets :=
  match c with
  | App.update_status message => update_status message w
  | App.update_file_list file_paths => update_file_list rt file_paths w
  | App.setup_progress_bar maximum => setup_progress_bar maximum w
  | App.update_progress value => update_progress value w
  | App.enable_button button_name => enable_button button_name w
  | App.disable_button button_name => disable_button button_name w
  | App.show_file_dialog | App.show_save_dialog _
  | App.show_warning _ _ | App.show_error _ _ | App.show_info _ _
  | App.process_image _ | App.export_to_csv _ _ => w
  end.

(** A trace of calls, in order. *)
Definition render (rt : runtime) (tr : list App.call) (w : widgets)
    : widgets :=
  fold_left (fun w c => run rt c w) tr w.

End UI.

(** ** The application at work

    The controller with its widgets. A click on a button runs the handler
    the button is bound to when the button is active; a [ttk.Button] in the
    state [DISABLED] does not run its command. *)

Module Session.

Record system := mkSystem {
  app : App.app;
  ui : UI.widgets
}.

(** [ImageProcessorApp.__init__] *)
Definition boot : system := {| app := App.init; ui := UI.created |}.

Section Clicks.

Variable rt : runtime.
Context {World : Type}.
Variable processor : string -> World -> result pyobj * World.

Definition click_select (files : list string) (fs : filesystem) (s : system)
    : system * list App.call :=
  match UI.select_btn (ui s) with
  | UI.DISABLED => (s, [])
  | UI.NORMAL =>
      let '(a, tr) := App.handle_select_files rt files fs (app s) in
      ({| app := a; ui := UI.render rt tr (ui s) |}, tr)
  end.

Definition click_process (w : World) (s : system)
    : system * World * list App.call :=
  match UI.process_btn (ui s) with
  | UI.DISABLED => (s, w, [])
  | UI.NORMAL =>
      let '(a, w, tr) := App.handle_process_images rt processor (app s) w in
      ({| app := a; ui := UI.render rt tr (ui s) |}, w, tr)
  end.

Definition click_export (chosen : string) (fs : filesystem) (s : system)
    : system * filesystem * list App.call :=
  match UI.export_btn (ui s) with
  | UI.DISABLED => (s, fs, [])
  | UI.NORMAL =>
      let '(_, a, fs, tr) := App.handle_export_csv rt chosen (app s) fs in
      ({| app := a; ui := UI.render rt tr (ui s) |}, fs, tr)
  end.

(** The states the application is in between two clicks, whatever the
    dialogs return and whatever the files and the processor are then. *)
Inductive reachable : system -> Prop :=
| reach_boot : reachable boot
| reach_select files fs s :
    reachable s -> reachable (click_select files fs s).1
| reach_process w s :
    reachable s -> reachable (click_process w s).1.1
| reach_export chosen fs s :
    reachable s -> reachable (click_export chosen fs s).1.1.

End Clicks.

End Session.

(** *** More vocabulary *)




(** [o] is a dict and each of its keys is one of [fieldnames]. *)
Definition keys_within (fieldnames : list string) (o : pyobj) : Prop :=
  exists d, o = PyDict d /\ forall k, In k (dict_keys d) -> In k fieldnames.

(** [row] holds, column by column, the text of the value the record [o] has
    under the key of the column, and nothing where it has none. *)
Definition row_with_gaps (rt : runtime) (header : list string) (o : pyobj)
    (row : list string) : Prop :=
  exists d, o = PyDict d
    /\ Forall2 (fun key cell =>
                  match dict_get d key with
                  | Some v => csv.field_str rt v = Return cell
                  | None => cell = EmptyString
                  end)
               header row.

(** The paths of [files] that [validate_image_file] refuses. *)
Definition refused (rt : runtime) (fs : filesystem) (files : list string)
    : list string :=
  List.filter (fun f => negb (ImageProcessor.validate_image_file rt fs f)) files.

(** A world for the examples: [/in/a.png] has 2048 bytes at every call,
    no other file can be read; the clock shows the number of the call. *)
Definition studio : ImageProcessor.world :=
  {| ImageProcessor.calls := 0;
     ImageProcessor.getsize := fun _ p =>
       if String.eqb p "/in/a.png" then Return 2048
       else Raise (OSError "Permission denied");
     ImageProcessor.strftime := fun k => "2024-01-01 00:00:0" +:+ str_nat k |}.

(** The application after a selection of three paths, and after processing
    them with [flaky] and with the mock processor. *)
Definition desk_selected : Session.system :=
  (Session.click_select posix ["/in/a.png"; "/in/notes.txt"; "/in/b.JPG"]
     disk Session.boot).1.

Definition desk_processed : Session.system :=
  (Session.click_process posix flaky 0%nat desk_selected).1.1.

Definition studio_processed : Session.system :=
  (Session.click_process posix (ImageProcessor.process_image posix) studio
     desk_selected).1.1.

(** *** Values that can be written *)







(** *** The processor after a run *)

Section WorldAfter.

Context {World : Type}.
Variable processor : string -> World -> result pyobj * World.

(** The state of the processor after it ran on each path in turn. *)
Fixpoint world_after (files : list string) (w : World) : World :=
  match files with
  | [] => w
  | p :: rest => world_after rest (processor p w).2
  end.

End WorldAfter.

(** * Properties *)

(** ** Strings *)

Lemma append_cons c s t : String c s +:+ t = String c (s +:+ t).
Proof. reflexivity. Qed.


Lemma append_empty_r s : s +:+ EmptyString = s.
Proof. induction s as [|c s IH]; [done|]. by rewrite append_cons, IH. Qed.


(** ** FileValidator *)

(** [splitext] cuts the path in two: nothing is lost. *)
Lemma take_drop_str n : forall s, take_str n s +:+ drop_str n s = s.
Proof.
  induction n as [|n IH]; intros [|c s]; cbn [take_str drop_str]; try done.
  by rewrite append_cons, IH.
Qed.

Lemma skip_leading_dots_join p dotIndex n : forall filenameIndex,
  let r := ospath.skip_leading_dots p dotIndex n filenameIndex in
  r.1 +:+ r.2 = p.
Proof.
  induction n as [|n IH]; intros i; cbn [ospath.skip_leading_dots].
  - apply append_empty_r.
  - destruct (i <? dotIndex); [|apply append_empty_r].
    destruct (negb _); [apply take_drop_str | apply IH].
Qed.

Lemma splitext_join sep altsep p :
  let r := ospath.splitext sep altsep p in r.1 +:+ r.2 = p.
Proof.
  unfold ospath.splitext.
  destruct (_ <? _); [apply skip_leading_dots_join | apply append_empty_r].
Qed.

(** The extension starts at the last dot of the last component; leading
    dots of the component do not start one. *)
Example extension_samples :
  map (extension posix)
      ["/in/photo.PNG"; "archive.tar.jpeg"; "/in.png/readme"; ".png";
       "/in/..jpg"; "/in/a.b/..c.jpg"]
  = [".PNG"; ".jpeg"; EmptyString; EmptyString; EmptyString; ".jpg"].
Proof. vm_compute. reflexivity. Qed.

Lemma is_capital_bound c : is_capital c = true -> (N_of_ascii c + 32 < 256)%N.
Proof.
  unfold is_capital. intros H.
  apply orb_true_iff in H as [H | H].
  - apply andb_true_iff in H as [_ H]. apply N.leb_le in H. lia.
  - apply andb_true_iff in H as [H _]. apply andb_true_iff in H as [_ H].
    apply N.leb_le in H. lia.
Qed.

Lemma lower_char_same_letter c l :
  is_capital l = false -> lower_char c = l <-> same_letter c l.
Proof.
  intros Hl. unfold lower_char, same_letter.
  destruct (is_capital c) eqn:Hc; split.
  - intros <-. right; left. split; [done|].
    apply N_ascii_embedding, is_capital_bound, Hc.
  - intros [-> | [[_ H] | [H _]]]; [congruence | | congruence].
    rewrite <- H. apply ascii_N_embedding.
  - intros ->. by left.
  - intros [-> | [[H _] | [H _]]]; congruence.
Qed.

Lemma lower_equal_ignoring_case e : forall s,
  no_capitals e = true -> lower s = e <-> equal_ignoring_case s e.
Proof.
  induction e as [|l e IH]; intros [|c s] He; simpl.
  - done.
  - split; [discriminate | tauto].
  - split; [discriminate | tauto].
  - simpl in He. apply andb_true_iff in He as [Hl He].
    apply negb_true_iff in Hl.
    rewrite <- (lower_char_same_letter c l Hl), <- (IH s He).
    split; [intros [= -> ->]; done | intros [-> ->]; done].
Qed.

Lemma valid_extensions_accepted s :
  s ∈ ImageProcessor.valid_extensions <-> In s accepted_extensions.
Proof.
  unfold ImageProcessor.valid_extensions, accepted_extensions. simpl.
  rewrite !elem_of_union, !elem_of_singleton. intuition congruence.
Qed.

Lemma accepted_no_capitals e :
  In e accepted_extensions -> no_capitals e = true.
Proof. simpl. intros [<- | [<- | [<- | []]]]; reflexivity. Qed.

Lemma isfile_existing fs p : isfile fs p = true <-> existing_file fs p.
Proof. unfold isfile, existing_file. by rewrite bool_decide_eq_true. Qed.

(** C4. [validate_image_file] returns true exactly when the extension of the
    path, compared without regard to case, is one of [.png], [.jpg], [.jpeg]
    and the path is an existing regular file; for every other path it
    returns false. *)
Theorem validate_image_file_iff (rt : runtime) (fs : filesystem)
    (path : string) :
  (ImageProcessor.validate_image_file rt fs path = true
   <-> has_accepted_extension rt path /\ existing_file fs path)
  /\ (~ (has_accepted_extension rt path /\ existing_file fs path)
      -> ImageProcessor.validate_image_file rt fs path = false).
Proof.
  assert (Hiff : ImageProcessor.validate_image_file rt fs path = true
                 <-> has_accepted_extension rt path /\ existing_file fs path).
  { unfold ImageProcessor.validate_image_file, has_accepted_extension, extension.
    rewrite andb_true_iff, bool_decide_eq_true, isfile_existing.
    rewrite valid_extensions_accepted.
    apply and_iff_compat_r. split.
    - intros Hin. eexists; split; [exact Hin|].
      apply lower_equal_ignoring_case; [by apply accepted_no_capitals | done].
    - intros (e & Hin & Heq).
      apply lower_equal_ignoring_case in Heq; [| by apply accepted_no_capitals].
      by rewrite Heq. }
  split; [exact Hiff|].
  intros Hn. apply not_true_is_false. by rewrite Hiff.
Qed.

(** An upper-case extension on an existing file is accepted; a text file
    and a missing image are not. *)
Lemma validate_image_file_iff_witness :
  ImageProcessor.validate_image_file posix disk "/in/b.JPG" = true
  /\ ImageProcessor.validate_image_file posix disk "/in/notes.txt" = false
  /\ ImageProcessor.validate_image_file posix disk "/in/c.png" = false.
Proof.
  split; [reflexivity|]. split.
  - apply (validate_image_file_iff posix disk "/in/notes.txt").
    intros [(e & Hin & Heq) _]. simpl in Hin.
    destruct Hin as [<- | [<- | [<- | []]]]; vm_compute in Heq;
      repeat match goal with
             | H : _ /\ _ |- _ => destruct H
             | H : _ \/ _ |- _ => destruct H
             end; first [contradiction | congruence].
  - apply (validate_image_file_iff posix disk "/in/c.png").
    intros [_ [text Ht]]. vm_compute in Ht. discriminate.
Defined.

(** ** TabularExporter: validate *)

Lemma forallb_is_dict data :
  forallb is_dict data = true <-> (forall o, In o data -> exists d, o = PyDict d).
Proof.
  rewrite forallb_forall. split; intros H o Ho.
  - specialize (H o Ho). destruct o; [by eexists | discriminate].
  - destruct (H o Ho) as [d ->]. reflexivity.
Qed.

Lemma all_keys_equal_decides fk items :
  (forall o, In o items -> exists d, o = PyDict d) ->
  exists b, CSVExporter.all_keys_equal fk items = Return b
    /\ (b = true <->
        forall d, In (PyDict d) items -> key_set (dict_keys d) = fk).
Proof.
  induction items as [|item rest IH]; intros Hd.
  - exists true. split; [reflexivity|]. split; [intros _ d [] | done].
  - destruct (Hd item (or_introl eq_refl)) as [d0 ->].
    destruct IH as (b & Hb & Hiff); [intros o Ho; apply Hd; by right|].
    cbn [CSVExporter.all_keys_equal keys mbind result_bind].
    case_bool_decide as Heq.
    + exists b. split; [exact Hb|]. rewrite Hiff. split.
      * intros H d [[= ->] | Hin]; [done | by apply H].
      * intros H d Hin. apply H. by right.
    + exists false. split; [reflexivity|]. split; [discriminate|].
      intros H. destruct Heq. apply H. by left.
Qed.

Lemma validate_data_decides data :
  exists b, CSVExporter.validate_data data = Return b
    /\ (b = true <-> fit_for_export data).
Proof.
  unfold CSVExporter.validate_data, fit_for_export.
  destruct data as [|first rest].
  - exists false. split; [reflexivity|]. split; [discriminate | by intros [[] _]].
  - cbn [truthy negb].
    destruct (forallb is_dict (first :: rest)) eqn:Hd; cbn [negb].
    2:{ exists false. split; [reflexivity|]. split; [discriminate|].
        intros (_ & Hall & _). apply (proj2 (forallb_is_dict _)) in Hall.
        congruence. }
    pose proof (proj1 (forallb_is_dict _) Hd) as Hd'. clear Hd.
    rename Hd' into Hd.
    destruct (Hd first (or_introl eq_refl)) as [d0 ->].
    destruct rest as [|item rest].
    + exists true. split; [reflexivity|]. split; [|done]. intros _.
      split; [done|]. split; [exact Hd|].
      intros d1 d2 [[= ->] | []] [[= ->] | []]. reflexivity.
    + destruct (all_keys_equal_decides (key_set (dict_keys d0)) (item :: rest))
        as (b & Hb & Hiff); [intros o Ho; apply Hd; by right|].
      change (drop 1 (PyDict d0 :: item :: rest)) with (item :: rest).
      cbn [length Nat.ltb Nat.leb first_item keys mbind result_bind].
      rewrite Hb. exists b. split; [by destruct b|].
      rewrite Hiff. split.
      * intros H. split; [done|]. split; [exact Hd|].
        intros d1 d2 [[= ->] | H1] [[= ->] | H2]; try done.
        -- symmetry. by apply H.
        -- by apply H.
        -- rewrite (H d1 H1). symmetry. by apply H.
      * intros (_ & _ & H) d Hin. apply H; [by right | by left].
Qed.

(** C3. [validate_data] returns, and returns true exactly when the list is
    not empty, every element is a mapping and all elements have the same set
    of keys; it returns false otherwise, so for the empty list, for a list
    with an element that is no mapping and for records of different
    schemas. *)
Theorem validate_data_iff (data : list pyobj) :
  (CSVExporter.validate_data data = Return true <-> fit_for_export data)
  /\ (CSVExporter.validate_data data = Return false <-> ~ fit_for_export data)
  /\ CSVExporter.validate_data [] = Return false
  /\ (forall v before after,
        CSVExporter.validate_data (before ++ PyValue v :: after) = Return false)
  /\ (forall d1 d2 before between after,
        key_set (dict_keys d1) <> key_set (dict_keys d2) ->
        CSVExporter.validate_data
          (before ++ PyDict d1 :: between ++ PyDict d2 :: after)
        = Return false).
Proof.
  assert (Hfalse : forall l,
            CSVExporter.validate_data l = Return false <-> ~ fit_for_export l).
  { intros l. destruct (validate_data_decides l) as (b & -> & Hiff).
    rewrite <- Hiff. destruct b; split; congruence. }
  split; [|split; [apply Hfalse | split; [reflexivity | split]]].
  - destruct (validate_data_decides data) as (b & -> & Hiff).
    rewrite <- Hiff. split; congruence.
  - intros v before after. apply Hfalse. intros (_ & Hall & _).
    destruct (Hall (PyValue v)) as [d Hd]; [|discriminate].
    apply in_or_app. right. by left.
  - intros d1 d2 before between after Hne. apply Hfalse. intros (_ & _ & Hk).
    apply Hne, Hk.
    + apply in_or_app. right. by left.
    + apply in_or_app. right. right. apply in_or_app. right. by left.
Qed.

(** The two records of one schema pass; with a record of another schema
    added they do not. *)
Lemma validate_data_iff_witness :
  CSVExporter.validate_data two_records = Return true
  /\ CSVExporter.validate_data
       (two_records ++ PyDict [("n", VInt 3)] :: [] ++ PyDict [] :: [])
     = Return false.
Proof.
  split; [reflexivity|].
  apply (validate_data_iff []). vm_compute. discriminate.
Defined.

(** ** TabularExporter: export *)

(** C5. [export_to_csv] on an empty list raises the [ValueError] for missing
    data and leaves the file system as it was, on every file system and for
    every destination; the check is its own, [validate_data] is not
    called. *)
Theorem export_to_csv_empty (rt : runtime) (file_path : string)
    (fs : filesystem) :
  CSVExporter.export_to_csv rt [] file_path fs
  = (Raise (ValueError "No data to export"), fs).
Proof. reflexivity. Qed.


Lemma key_set_in ks k : k ∈ key_set ks <-> In k ks.
Proof. unfold key_set. by rewrite elem_of_list_to_set, list_elem_of_In. Qed.

Lemma filter_none {A} (f : A -> bool) l :
  (forall x, In x l -> f x = false) -> List.filter f l = [].
Proof.
  induction l as [|x l IH]; [done|]. intros H. cbn [List.filter].
  rewrite (H x (or_introl eq_refl)). apply IH. intros y Hy. apply H. by right.
Qed.

Lemma filter_nil_inv {A} (f : A -> bool) l :
  List.filter f l = [] -> forall x, In x l -> f x = false.
Proof.
  induction l as [|y l IH]; [intros _ x []|]. cbn [List.filter].
  destruct (f y) eqn:Hy; [discriminate|].
  intros H x [<- | Hx]; [done | by apply IH].
Qed.

Section ExportRows.

Variable rt : runtime.

(** The fields of a row are converted exactly when each value prints. *)
Lemma fields_str_return row : forall fields,
  csv.fields_str rt row = Return fields
  <-> Forall2 (fun v s => csv.field_str rt v = Return s) row fields.
Proof.
  induction row as [|v row IH]; intros fields; cbn [csv.fields_str].
  - split; [intros [= <-]; constructor | intros H; by inversion H].
  - unfold mbind, result_bind.
    destruct (csv.field_str rt v) as [s|e] eqn:Hv.
    + destruct (csv.fields_str rt row) as [fs|e] eqn:Hrow; split.
      * intros [= <-]. constructor; [done | by apply IH].
      * intros H. inversion H as [|? s' ? fs' Hs Hfs]; subst.
        apply IH in Hfs. congruence.
      * discriminate.
      * intros H. inversion H as [|? s' ? fs' Hs Hfs]; subst.
        apply IH in Hfs. discriminate.
    + split; [discriminate|]. intros H. inversion H; subst. congruence.
Qed.

(** [_dict_to_list] returns exactly on the dicts whose keys are all field
    names, and then gives the values in the order of the field names, with
    [restval] for a key the dict lacks. *)
Lemma dict_to_list_return fieldnames o row :
  csv._dict_to_list rt fieldnames o = Return row
  <-> exists d, o = PyDict d
        /\ (forall k, In k (dict_keys d) -> In k fieldnames)
        /\ row = map (fun key => default csv.restval (dict_get d key)) fieldnames.
Proof.
  unfold csv._dict_to_list. destruct o as [d|v].
  2:{ split; [discriminate | by intros (? & ? & _)]. }
  cbn [keys mbind result_bind].
  destruct (List.filter _ (dict_keys d)) as [|k ks] eqn:Hf; cbn [truthy].
  - split.
    + intros [= <-]. exists d. split; [done|]. split; [|done]. intros k Hk.
      pose proof (filter_nil_inv _ _ Hf k Hk) as Hb.
      apply negb_false_iff, bool_decide_eq_true in Hb. by apply list_elem_of_In.
    + by intros (d' & [= <-] & _ & ->).
  - split; [discriminate|]. intros (d' & [= <-] & Hk & _).
    assert (Hin : In k (List.filter
                          (fun k => negb (bool_decide (k ∈ fieldnames)))
                          (dict_keys d))) by (rewrite Hf; by left).
    apply filter_In in Hin as [Hin Hb].
    apply negb_true_iff, bool_decide_eq_false in Hb.
    destruct Hb. by apply list_elem_of_In, Hk.
Qed.

(** The fields of the values of a record, and the record. *)
Lemma fields_of_record d fieldnames fields :
  Forall2 (fun v s => csv.field_str rt v = Return s)
          (map (fun key => default csv.restval (dict_get d key)) fieldnames)
          fields
  <-> row_with_gaps rt fieldnames (PyDict d) fields.
Proof.
  unfold row_with_gaps. split.
  - intros H. exists d. split; [done|].
    revert fields H. induction fieldnames as [|k ks IH]; intros fields H;
      inversion H as [|? s ? fs Hs Hfs]; subst; constructor; [|by apply IH].
    destruct (dict_get d k); cbn in Hs; [done | by injection Hs].
  - intros (d' & [= <-] & H).
    revert fields H. induction fieldnames as [|k ks IH]; intros fields H;
      inversion H as [|? s ? fs Hs Hfs]; subst; constructor; [|by apply IH].
    destruct (dict_get d k); cbn; [done | by subst].
Qed.

(** [DictWriter.writerow] returns exactly on a dict within the field names
    whose values there print, and then appends its row. *)
Lemma dict_writerow_return fieldnames o out out' :
  csv.dict_writerow rt fieldnames o out = (Return tt, out')
  <-> exists fields,
        keys_within fieldnames o
        /\ row_with_gaps rt fieldnames o fields
        /\ out' = out +:+ csv.writerow fields.
Proof.
  unfold csv.dict_writerow, mbind, result_bind.
  destruct (csv._dict_to_list rt fieldnames o) as [row|e] eqn:Hrow.
  - apply dict_to_list_return in Hrow as (d & -> & Hk & ->).
    destruct (csv.fields_str rt _) as [fields|e] eqn:Hf.
    + split.
      * intros [= <-]. exists fields. split; [by exists d|]. split; [|done].
        by apply fields_of_record, fields_str_return.
      * intros (fields' & _ & Hg & ->).
        apply fields_of_record, fields_str_return in Hg. congruence.
    + split; [discriminate|]. intros (fields' & _ & Hg & _).
      apply fields_of_record, fields_str_return in Hg. congruence.
  - split; [discriminate|]. intros (fields & (d & -> & Hk) & _).
    assert (csv._dict_to_list rt fieldnames (PyDict d) =
            Return (map (fun key => default csv.restval (dict_get d key))
                        fieldnames)) as Hret.
    { apply dict_to_list_return. by exists d. }
    congruence.
Qed.







Lemma dict_get_header k : forall fieldnames,
  In k fieldnames ->
  dict_get (map (fun k => (k, VStr k)) fieldnames) k = Some (VStr k).
Proof.
  induction fieldnames as [|k' ks IH]; [intros []|].
  cbn [map dict_get]. intros Hin.
  destruct (String.eqb_spec k' k) as [->|Hne]; [done|].
  destruct Hin as [Heq | Hin]; [done|]. by apply IH.
Qed.

Lemma writeheader_text fieldnames out :
  csv.writeheader rt fieldnames out
  = (Return tt, out +:+ csv.writerow fieldnames).
Proof.
  unfold csv.writeheader. apply dict_writerow_return.
  exists fieldnames. split; [|split; [|done]].
  - eexists. split; [done|]. unfold dict_keys.
    rewrite map_map. cbn [fst]. by rewrite map_id.
  - eexists. split; [done|].
    assert (H : forall l, (forall k, In k l -> In k fieldnames) ->
                Forall2 (fun key cell =>
                           match dict_get (map (fun k => (k, VStr k)) fieldnames)
                                          key with
                           | Some v => csv.field_str rt v = Return cell
                           | None => cell = EmptyString
                           end) l l).
    { induction l as [|k l IH]; intros Hl; constructor.
      - rewrite dict_get_header by (apply Hl; by left). done.
      - apply IH. intros k' Hk'. apply Hl. by right. }
    by apply H.
Qed.


Lemma export_open data file_path fs :
  data <> [] ->
  fs_open_error fs file_path = None ->
  CSVExporter.export_to_csv rt data file_path fs
  = ((CSVExporter.write_csv rt data).1,
     write_file fs file_path (CSVExporter.write_csv rt data).2).
Proof.
  intros Hne Hopen. unfold CSVExporter.export_to_csv.
  destruct data; [done|]. cbn [truthy negb]. rewrite Hopen.
  by destruct (CSVExporter.write_csv rt _).
Qed.

Lemma write_csv_first d0 rest :
  CSVExporter.write_csv rt (PyDict d0 :: rest)
  = csv.writerows rt (dict_keys d0) (PyDict d0 :: rest)
      (csv.writerow (dict_keys d0)).
Proof.
  unfold CSVExporter.write_csv.
  cbn [first_item keys mbind result_bind]. by rewrite writeheader_text.
Qed.


End ExportRows.












Lemma two_records_fit : fit_for_export two_records.
Proof.
  split; [discriminate|]. split.
  - intros o [<- | [<- | []]]; by eexists.
  - intros d1 d2 [[= <-] | [[= <-] | []]] [[= <-] | [[= <-] | []]];
      by vm_compute.
Qed.




(** ** The round trip through delimited text *)

Import DelimitedText.

















(** The file of the two records, read back. *)
Example two_records_read_back :
  (fun text => read_rows <$> text)
    (fs_files
       (snd (CSVExporter.export_to_csv posix two_records "/out/data.csv" disk))
       !! "/out/data.csv")
  = Some [ ["name"; "n"];
           ["a,b"; "1"];
           [String DQUOTE (String CR (String LF "x")); "-2"] ].
Proof. vm_compute. reflexivity. Qed.

(** ** BatchRunner: the processing run *)

Lemma successes_failures_length l :
  (length (successes l) + length (failures l) = length l)%nat.
Proof.
  unfold successes, failures.
  induction l as [|[p [o|e]] l IH]; [done| |]; cbn in *; lia.
Qed.

Section Run.

Variable rt : runtime.
Context {World : Type}.
Variable processor : string -> World -> result pyobj * World.

Lemma attempts_length files : forall w,
  length (attempts processor files w) = length files.
Proof.
  induction files as [|p files IH]; intros w; [done|].
  cbn [attempts]. destruct (processor p w) as [r w'].
  cbn [length]. by rewrite IH.
Qed.

Lemma process_loop_run total files : forall idx data w,
  let r := App.process_loop rt processor total idx files data w in
  r.1.1 = data ++ successes (attempts processor files w)
  /\ invocations r.2 = files
  /\ progress_reports r.2 = seq idx (length files)
  /\ attempts_and_progress r.2 = attempt_then_progress idx files
  /\ errors_reported r.2
     = map (failure_report rt) (failures (attempts processor files w)).
Proof.
  induction files as [|p files IH]; intros idx data w.
  - cbn. by rewrite app_nil_r.
  - cbn [App.process_loop attempts].
    destruct (processor p w) as [[o|e] w1].
    + specialize (IH (S idx) (data ++ [o]) w1).
      destruct (App.process_loop rt processor total (S idx) files (data ++ [o]) w1)
        as [[data' w'] calls].
      cbn in IH |- *. destruct IH as (-> & -> & -> & -> & ->).
      by rewrite <- app_assoc.
    + specialize (IH (S idx) data w1).
      destruct (App.process_loop rt processor total (S idx) files data w1)
        as [[data' w'] calls].
      cbn in IH |- *. destruct IH as (-> & -> & -> & -> & ->).
      done.
Qed.

Lemma omap_calls_app {B} (f : App.call -> option B) l1 l2 :
  omap f (l1 ++ l2) = omap f l1 ++ omap f l2.
Proof. apply omap_app. Qed.

(** What one processing run does, for a selection that is not empty. *)
Lemma handle_process_images_run self w :
  App.selected_files self <> [] ->
  let files := App.selected_files self in
  let r := App.handle_process_images rt processor self w in
  App.selected_files r.1.1 = files
  /\ App.processed_data r.1.1 = successes (attempts processor files w)
  /\ invocations r.2 = files
  /\ progress_reports r.2 = seq 1 (length files)
  /\ attempts_and_progress r.2 = attempt_then_progress 1 files
  /\ errors_reported r.2
     = map (failure_report rt) (failures (attempts processor files w)).
Proof.
  intros Hne. unfold App.handle_process_images.
  destruct (App.selected_files self) as [|p files] eqn:Hsel; [done|].
  cbn [truthy negb].
  pose proof (process_loop_run (length (p :: files)) (p :: files) 1 [] w) as H.
  destruct (App.process_loop rt processor (length (p :: files)) 1 (p :: files) [] w)
    as [[data w'] looped].
  cbn [fst snd] in H. destruct H as (Hdata & Hinv & Hprog & Hboth & Herr).
  cbn [fst snd App.selected_files App.processed_data].
  rewrite app_nil_l in Hdata.
  unfold invocations, progress_reports, errors_reported, attempts_and_progress
    in *.
  rewrite !omap_calls_app, !List.filter_app, Hinv, Hprog, Hboth, Herr.
  destruct data; cbn; rewrite ?app_nil_r; done.
Qed.

(** The processor is left in the state the attempts lead to. *)
Lemma process_loop_world total files : forall idx data w,
  (App.process_loop rt processor total idx files data w).1.2
  = world_after processor files w.
Proof.
  induction files as [|p files IH]; intros idx data w; [done|].
  cbn [App.process_loop world_after].
  destruct (processor p w) as [[o|e] w1]; cbn [snd].
  - specialize (IH (S idx) (data ++ [o]) w1).
    by destruct (App.process_loop rt processor total (S idx) files _ w1)
      as [[data' w'] calls].
  - specialize (IH (S idx) data w1).
    by destruct (App.process_loop rt processor total (S idx) files _ w1)
      as [[data' w'] calls].
Qed.

Lemma handle_process_images_world self w :
  App.selected_files self <> [] ->
  (App.handle_process_images rt processor self w).1.2
  = world_after processor (App.selected_files self) w.
Proof.
  intros Hne. unfold App.handle_process_images.
  destruct (App.selected_files self) as [|p files] eqn:Hsel; [done|].
  cbn [truthy negb].
  pose proof (process_loop_world (length (p :: files)) (p :: files) 1 [] w) as H.
  by destruct (App.process_loop rt processor (length (p :: files)) 1
                 (p :: files) [] w) as [[data w'] looped].
Qed.

(** C1. For a selection that is not empty, one run of
    [handle_process_images] invokes the processor once for each path, in the
    order of the selection: the calls it makes are on these paths, the batch
    is made of what the processor returned on them and the errors shown of
    what it raised, and the processor is left in the state that one run on
    each path in turn leads to. The records kept and the failures reported
    add up to the number of paths; and progress is reported once for each
    item, right after the attempt on it, with the indices 1, 2, ..., N. *)
Theorem handle_process_images_once_per_item (self : App.app) (w : World) :
  App.selected_files self <> [] ->
  let files := App.selected_files self in
  let r := App.handle_process_images rt processor self w in
  invocations r.2 = files
  /\ App.processed_data r.1.1 = successes (attempts processor files w)
  /\ errors_reported r.2
     = map (failure_report rt) (failures (attempts processor files w))
  /\ r.1.2 = world_after processor files w
  /\ (length (App.processed_data r.1.1) + length (errors_reported r.2)
      = length files)%nat
  /\ progress_reports r.2 = seq 1 (length files)
  /\ attempts_and_progress r.2 = attempt_then_progress 1 files.
Proof.
  intros Hne files r.
  destruct (handle_process_images_run self w Hne)
    as (_ & Hdata & Hinv & Hprog & Hboth & Herr).
  pose proof (handle_process_images_world self w Hne) as Hworld.
  fold files r in Hdata, Hinv, Hprog, Hboth, Herr, Hworld.
  repeat split; try done.
  rewrite Hdata, Herr, length_map, successes_failures_length.
  apply attempts_length.
Qed.

(** C2. Whatever the processor does, in every consistent state a run of
    [handle_process_images] attempts every path of the selection, also after
    an attempt that raised; each exception is caught and shown as an error;
    and the batch is made of the records of the attempts that returned, in
    the order of the selection, with nothing in the place of the others. *)
Theorem handle_process_images_isolates_failures (self : App.app) (w : World) :
  consistent self ->
  let files := App.selected_files self in
  let r := App.handle_process_images rt processor self w in
  invocations r.2 = files
  /\ App.processed_data r.1.1 = successes (attempts processor files w)
  /\ errors_reported r.2
     = map (failure_report rt) (failures (attempts processor files w)).
Proof.
  intros Hc files r.
  destruct (App.selected_files self) as [|p rest] eqn:Hsel.
  - subst files r. unfold App.handle_process_images. rewrite Hsel.
    cbn. split; [done|]. split; [by apply Hc | done].
  - assert (Hne : App.selected_files self <> []) by congruence.
    destruct (handle_process_images_run self w Hne)
      as (_ & Hdata & Hinv & Hprog & Hboth & Herr).
    subst files r. rewrite Hsel in *. done.
Qed.

End Run.

Lemma handle_process_images_once_per_item_witness :
  let self := App.mkApp ["/in/a.png"; "/in/b.JPG"; "/in/c.png"] [] in
  let r := App.handle_process_images posix flaky self 0%nat in
  invocations r.2 = ["/in/a.png"; "/in/b.JPG"; "/in/c.png"]
  /\ App.processed_data r.1.1
     = [ PyDict [("file_path", VStr "/in/a.png"); ("run", VInt 0)];
         PyDict [("file_path", VStr "/in/c.png"); ("run", VInt 2)] ]
  /\ errors_reported r.2
     = [ ("Processing Error",
          "Error processing b.JPG:" +:+ App.newline +:+ "cannot read") ]
  /\ r.1.2 = 3%nat
  /\ (length (App.processed_data r.1.1) + length (errors_reported r.2) = 3)%nat
  /\ progress_reports r.2 = [1; 2; 3]%nat
  /\ attempts_and_progress r.2
     = [ App.process_image "/in/a.png"; App.update_progress 1;
         App.process_image "/in/b.JPG"; App.update_progress 2;
         App.process_image "/in/c.png"; App.update_progress 3 ].
Proof.
  apply (handle_process_images_once_per_item posix flaky
           (App.mkApp ["/in/a.png"; "/in/b.JPG"; "/in/c.png"] []) 0%nat).
  discriminate.
Defined.

Lemma handle_process_images_isolates_failures_witness :
  let self := App.mkApp ["/in/a.png"; "/in/b.JPG"; "/in/c.png"] [] in
  let r := App.handle_process_images posix flaky self 0%nat in
  invocations r.2 = ["/in/a.png"; "/in/b.JPG"; "/in/c.png"]
  /\ App.processed_data r.1.1
     = [ PyDict [("file_path", VStr "/in/a.png"); ("run", VInt 0)];
         PyDict [("file_path", VStr "/in/c.png"); ("run", VInt 2)] ]
  /\ errors_reported r.2
     = [ ("Processing Error",
          "Error processing b.JPG:" +:+ App.newline +:+ "cannot read") ].
Proof.
  apply (handle_process_images_isolates_failures posix flaky
           (App.mkApp ["/in/a.png"; "/in/b.JPG"; "/in/c.png"] []) 0%nat).
  intros _. reflexivity.
Defined.

(** ** Controller *)

Lemma truthy_false {A} (l : list A) : truthy l = false <-> l = [].
Proof. by destruct l. Qed.

Lemma truthy_true {A} (l : list A) : truthy l = true <-> l <> [].
Proof. by destruct l. Qed.

(** C8 as first stated fails: when the dialog returns no path (it was
    cancelled), no path is valid and yet no warning is shown. *)
Lemma handle_select_files_counterexample :
  ~ (List.filter (ImageProcessor.validate_image_file posix disk) [] = [] ->
     warnings (App.handle_select_files posix [] disk App.init).2 <> []).
Proof. intros H. by apply H. Qed.

(** C8, amended. [handle_select_files] keeps the paths that pass
    [validate_image_file]. When some path passes, they become the selection,
    whatever it was before, and the batch is emptied. When none passes, the
    state stays as it is, and the warning is shown if the dialog returned
    some path; if it returned none, no warning is shown. *)
Theorem handle_select_files_effect (rt : runtime) (files : list string)
    (fs : filesystem) (self : App.app) :
  let valid := List.filter (ImageProcessor.validate_image_file rt fs) files in
  let r := App.handle_select_files rt files fs self in
  (valid <> [] -> r.1 = {| App.selected_files := valid; App.processed_data := [] |})
  /\ (valid = [] ->
      r.1 = self
      /\ (files <> [] ->
          In ("No Valid Files", "No valid image files were selected.")
             (warnings r.2))
      /\ (files = [] -> warnings r.2 = [])).
Proof.
  intros valid r. subst r. unfold App.handle_select_files. fold valid.
  destruct files as [|f files].
  - cbn. split; [done|]. intros _. done.
  - cbn [truthy]. destruct valid as [|v valid'] eqn:Hv; cbn [truthy fst snd].
    + split; [done|]. intros _. split; [done|]. split; [|done]. intros _.
      unfold warnings.
      change (?x :: ?l ++ ?l') with ([x] ++ l ++ l').
      rewrite !omap_app. apply in_or_app. right. apply in_or_app. right.
      by left.
    + split; [done | discriminate].
Qed.

(** C9. [handle_process_images] on an empty selection, and
    [handle_export_csv] on an empty batch, show one warning, end without an
    exception and leave the state, the processor and the file system as
    they were. *)
Theorem empty_process_and_export_warn :
  (forall (rt : runtime) (World : Type)
          (processor : string -> World -> result pyobj * World)
          (self : App.app) (w : World),
      App.selected_files self = [] ->
      App.handle_process_images rt processor self w
      = (self, w, [App.show_warning "No Files" "Please select files first."]))
  /\ (forall (rt : runtime) (chosen : string) (self : App.app)
             (fs : filesystem),
        App.processed_data self = [] ->
        App.handle_export_csv rt chosen self fs
        = (Return tt, self, fs,
           [App.show_warning "No Data" "Please process images first."])).
Proof.
  split.
  - intros rt World processor self w H.
    unfold App.handle_process_images. by rewrite H.
  - intros rt chosen self fs H.
    unfold App.handle_export_csv. by rewrite H.
Qed.

Lemma empty_process_and_export_warn_witness :
  App.handle_process_images posix flaky App.init 0%nat
  = (App.init, 0%nat, [App.show_warning "No Files" "Please select files first."])
  /\ App.handle_export_csv posix "/out/data.csv"
       (App.mkApp ["/in/a.png"] []) disk
     = (Return tt, App.mkApp ["/in/a.png"] [], disk,
        [App.show_warning "No Data" "Please process images first."]).
Proof.
  split.
  - apply (proj1 empty_process_and_export_warn). reflexivity.
  - apply (proj2 empty_process_and_export_warn). reflexivity.
Defined.

(** The [ValueError] of [str()] is not the one for missing data. *)
Lemma field_str_raise rt v :
  csv.field_str rt v <> Raise (ValueError "No data to export").
Proof.
  destruct v as [s|z|f]; cbn [csv.field_str]; try discriminate.
  unfold str_int_limited. destruct (exceeds_digits rt z); [|discriminate].
  rewrite append_cons. discriminate.
Qed.

Lemma fields_str_raise rt row :
  csv.fields_str rt row <> Raise (ValueError "No data to export").
Proof.
  induction row as [|v row IH]; [discriminate|].
  cbn [csv.fields_str]. unfold mbind, result_bind.
  pose proof (field_str_raise rt v) as Hv.
  destruct (csv.field_str rt v) as [s|e]; [|congruence].
  destruct (csv.fields_str rt row); [discriminate | exact IH].
Qed.

Lemma writerows_raise rt fieldnames rows : forall out,
  Forall (keys_within fieldnames) rows ->
  (csv.writerows rt fieldnames rows out).1
  <> Raise (ValueError "No data to export").
Proof.
  induction rows as [|o rows IH]; intros out Hall; [discriminate|].
  inversion Hall as [|? ? (d & -> & Hk) Hrows]; subst.
  cbn [csv.writerows]. unfold csv.dict_writerow, mbind, result_bind.
  assert (csv._dict_to_list rt fieldnames (PyDict d) =
          Return (map (fun key => default csv.restval (dict_get d key))
                      fieldnames)) as ->.
  { apply dict_to_list_return. by exists d. }
  pose proof (fields_str_raise rt
                (map (fun key => default csv.restval (dict_get d key))
                     fieldnames)) as Hf.
  destruct (csv.fields_str rt _) as [fields|e]; [by apply IH|].
  cbn [fst]. congruence.
Qed.

(** On a batch that is fit for export, [export_to_csv] does not raise the
    exception for missing data. *)
Lemma export_fit_not_missing (rt : runtime) data file_path fs :
  fit_for_export data ->
  (CSVExporter.export_to_csv rt data file_path fs).1
  <> Raise (ValueError "No data to export").
Proof.
  intros (Hne & Hd & Hk).
  destruct (fs_open_error fs file_path) as [msg|] eqn:Hopen.
  - unfold CSVExporter.export_to_csv. destruct data; [done|].
    cbn [truthy negb]. rewrite Hopen. discriminate.
  - rewrite export_open by done. cbn [fst].
    destruct data as [|first rest]; [done|].
    destruct (Hd first (or_introl eq_refl)) as [d0 ->].
    rewrite write_csv_first. apply writerows_raise.
    apply Forall_forall. intros o Ho. apply list_elem_of_In in Ho.
    destruct (Hd o Ho) as [d ->]. exists d. split; [done|]. intros k Hin.
    apply key_set_in. rewrite <- (Hk d d0 Ho (or_introl eq_refl)).
    by apply key_set_in.
Qed.

(** C10. Whenever [handle_export_csv] enters [export_to_csv], it does so
    on the batch of the state, which is then not empty and has passed
    [validate_data]; and that call does not raise the [ValueError] for
    missing data. *)
Theorem handle_export_csv_guarded (rt : runtime) (chosen : string)
    (self : App.app) (fs : filesystem) (data : list pyobj)
    (file_path : string) :
  In (App.export_to_csv data file_path)
     (App.handle_export_csv rt chosen self fs).2 ->
  data = App.processed_data self
  /\ data <> []
  /\ CSVExporter.validate_data data = Return true
  /\ (CSVExporter.export_to_csv rt data file_path fs).1
     <> Raise (ValueError "No data to export").
Proof.
  unfold App.handle_export_csv.
  destruct (truthy (App.processed_data self)) eqn:Ht; cbn [negb].
  2:{ cbn. intros [|[]]; discriminate. }
  destruct (validate_data_decides (App.processed_data self)) as (b & Hb & Hfit).
  rewrite Hb. destruct b.
  2:{ cbn. intros [|[]]; discriminate. }
  destruct (truthy_str chosen); cbn [negb].
  2:{ cbn. intros [|[]]; discriminate. }
  assert (Hcall : In (App.export_to_csv data file_path)
                     [App.show_save_dialog "processed_images.csv";
                      App.export_to_csv (App.processed_data self) chosen] ->
                  data = App.processed_data self /\ file_path = chosen).
  { intros [|[[= -> ->]|[]]]; [discriminate | done]. }
  intros Hin.
  assert (data = App.processed_data self /\ file_path = chosen) as [-> ->].
  { apply Hcall.
    destruct (CSVExporter.export_to_csv rt (App.processed_data self) chosen fs)
      as [[[]|e] fs']; cbn [snd] in Hin;
      apply in_app_or in Hin as [Hin | Hin]; try done;
      cbn in Hin; intuition discriminate. }
  split; [done|]. split; [by apply truthy_true|]. split; [done|].
  apply export_fit_not_missing. by apply Hfit.
Qed.

Lemma handle_export_csv_guarded_witness :
  two_records = App.processed_data (App.mkApp ["/in/a.png"] two_records)
  /\ two_records <> []
  /\ CSVExporter.validate_data two_records = Return true
  /\ (CSVExporter.export_to_csv posix two_records "/out/data.csv" disk).1
     <> Raise (ValueError "No data to export").
Proof.
  apply (handle_export_csv_guarded posix "/out/data.csv"
           (App.mkApp ["/in/a.png"] two_records) disk).
  vm_compute. right. left. reflexivity.
Defined.

Lemma handle_select_files_effect_witness :
  (App.handle_select_files posix ["/in/a.png"; "/in/notes.txt"] disk
     (App.mkApp ["/old.png"] two_records)).1
  = App.mkApp ["/in/a.png"] []
  /\ (App.handle_select_files posix ["/in/notes.txt"] disk
        (App.mkApp ["/old.png"] two_records)).1
     = App.mkApp ["/old.png"] two_records.
Proof.
  split.
  - apply (proj1 (handle_select_files_effect posix
                    ["/in/a.png"; "/in/notes.txt"] disk
                    (App.mkApp ["/old.png"] two_records))).
    vm_compute. discriminate.
  - apply (proj2 (handle_select_files_effect posix ["/in/notes.txt"] disk
                    (App.mkApp ["/old.png"] two_records))).
    reflexivity.
Defined.

(** ** The states the controller reaches *)

Lemma consistent_init : consistent App.init.
Proof. by intros _. Qed.

Lemma consistent_select rt files fs self :
  consistent self -> consistent (App.handle_select_files rt files fs self).1.
Proof.
  intros Hc. unfold App.handle_select_files.
  destruct (truthy files); [|done].
  destruct (truthy (List.filter _ files)); [|done].
  by intros _.
Qed.

Lemma consistent_process rt {World} (processor : string -> World -> _) self w :
  consistent self ->
  consistent (App.handle_process_images rt processor self w).1.1.
Proof.
  intros Hc. unfold App.handle_process_images.
  destruct (App.selected_files self) as [|p files] eqn:Hsel; cbn [truthy negb].
  - done.
  - destruct (App.process_loop _ _ _ _ _ _ _) as [[data w'] looped].
    intros H. cbn in H. congruence.
Qed.

(** [handle_export_csv] ends without an exception and leaves the state of
    the controller as it was. *)
Lemma handle_export_csv_state rt chosen self fs :
  (App.handle_export_csv rt chosen self fs).1.1 = (Return tt, self).
Proof.
  unfold App.handle_export_csv.
  destruct (truthy (App.processed_data self)); cbn [negb]; [|done].
  destruct (validate_data_decides (App.processed_data self)) as (b & -> & _).
  destruct b; [|done].
  destruct (truthy_str chosen); cbn [negb]; [|done].
  by destruct (CSVExporter.export_to_csv _ _ _ _) as [[[]|e] fs'].
Qed.

(** ** The mock processor *)

(** The mock processor returns a record of eight fixed fields, or raises
    what [os.path.getsize] raises. *)
Lemma process_image_fields rt file_path w :
  (exists d,
     (ImageProcessor.process_image rt file_path w).1 = Return (PyDict d)
     /\ dict_keys d
        = ["filename"; "file_path"; "file_size_kb"; "processed_timestamp";
           "mock_width"; "mock_height"; "mock_detected_objects";
           "mock_confidence_score"])
  \/ (exists e,
        (ImageProcessor.process_image rt file_path w).1 = Raise e
        /\ ImageProcessor.getsize w (ImageProcessor.calls w) file_path
           = Raise e).
Proof.
  unfold ImageProcessor.process_image.
  destruct (ImageProcessor.getsize w _ file_path) as [size|e].
  - left. by eexists.
  - right. by eexists.
Qed.

Lemma mock_successes_fields rt files : forall w o,
  In o (successes (attempts (ImageProcessor.process_image rt) files w)) ->
  exists d, o = PyDict d
    /\ dict_keys d
       = ["filename"; "file_path"; "file_size_kb"; "processed_timestamp";
          "mock_width"; "mock_height"; "mock_detected_objects";
          "mock_confidence_score"].
Proof.
  induction files as [|p files IH]; intros w o; [intros []|].
  cbn [attempts].
  destruct (process_image_fields rt p w) as [(d & Hd & Hk) | (e & He & _)];
    destruct (ImageProcessor.process_image rt p w) as [r w'];
    cbn [fst] in *; subst r; unfold successes; cbn; fold successes.
  - intros [<- | Hin]; [by eexists | by eapply IH].
  - apply IH.
Qed.

(** With the mock processor, a batch that is not empty is fit for export. *)
Lemma mock_batch_fit rt self w :
  let r := App.handle_process_images rt (ImageProcessor.process_image rt) self w in
  App.selected_files self <> [] ->
  App.processed_data r.1.1 <> [] ->
  fit_for_export (App.processed_data r.1.1).
Proof.
  intros r Hsel Hdata.
  destruct (handle_process_images_run rt (ImageProcessor.process_image rt)
              self w Hsel) as (_ & Hbatch & _).
  fold r in Hbatch. split; [done|]. rewrite Hbatch. split.
  - intros o Ho. destruct (mock_successes_fields rt _ _ _ Ho) as (d & -> & _).
    by eexists.
  - intros d1 d2 H1 H2.
    destruct (mock_successes_fields rt _ _ _ H1) as (d1' & [= <-] & ->).
    destruct (mock_successes_fields rt _ _ _ H2) as (d2' & [= <-] & ->).
    reflexivity.
Qed.

(** ** More on export *)

Section ExportMore.

Variable rt : runtime.





End ExportMore.





(** ** More on the export handler *)

Lemma truthy_str_true s : truthy_str s = true <-> s <> EmptyString.
Proof. by destruct s. Qed.

Lemma validate_data_fit data :
  fit_for_export data -> CSVExporter.validate_data data = Return true.
Proof.
  intros H. destruct (validate_data_decides data) as (b & -> & Hiff).
  f_equal. by apply Hiff.
Qed.

Lemma validate_data_unfit data :
  ~ fit_for_export data -> CSVExporter.validate_data data = Return false.
Proof.
  intros H. destruct (validate_data_decides data) as (b & -> & Hiff).
  f_equal. destruct b; [|done]. destruct H. by apply Hiff.
Qed.

(** X5. On a batch that is not empty and not fit for export,
    [handle_export_csv] shows the error for invalid data and does nothing
    else: no save dialog, no call of the exporter, no change of the files. *)
Theorem handle_export_csv_invalid (rt : runtime) (chosen : string)
    (self : App.app) (fs : filesystem) :
  App.processed_data self <> [] ->
  ~ fit_for_export (App.processed_data self) ->
  App.handle_export_csv rt chosen self fs
  = (Return tt, self, fs,
     [App.show_error "Invalid Data"
        "Processed data is not in valid format for export."]).
Proof.
  intros Hne Hunfit. unfold App.handle_export_csv.
  destruct (App.processed_data self) as [|o data] eqn:Hd; [done|].
  cbn [truthy negb]. by rewrite (validate_data_unfit _ Hunfit).
Qed.

Lemma handle_export_csv_invalid_witness :
  App.handle_export_csv posix "/out/data.csv"
    (App.mkApp ["/in/a.png"] [PyDict [("a", VInt 1)]; PyDict [("b", VInt 2)]])
    disk
  = (Return tt,
     App.mkApp ["/in/a.png"] [PyDict [("a", VInt 1)]; PyDict [("b", VInt 2)]],
     disk,
     [App.show_error "Invalid Data"
        "Processed data is not in valid format for export."]).
Proof.
  apply (handle_export_csv_invalid posix "/out/data.csv"
           (App.mkApp ["/in/a.png"]
              [PyDict [("a", VInt 1)]; PyDict [("b", VInt 2)]]) disk).
  - discriminate.
  - intros (_ & _ & Hk).
    specialize (Hk [("a", VInt 1)] [("b", VInt 2)]
                  (or_introl eq_refl) (or_intror (or_introl eq_refl))).
    vm_compute in Hk. discriminate.
Defined.




(** X7. When the chosen path cannot be opened, [handle_export_csv] catches
    the error of [open], shows it in the error box for a failed export and
    leaves the files and the state as they were. *)
Theorem handle_export_csv_open_error (rt : runtime) (chosen msg : string)
    (self : App.app) (fs : filesystem) :
  fit_for_export (App.processed_data self) ->
  chosen <> EmptyString ->
  fs_open_error fs chosen = Some msg ->
  App.handle_export_csv rt chosen self fs
  = (Return tt, self, fs,
     [App.show_save_dialog "processed_images.csv";
      App.export_to_csv (App.processed_data self) chosen;
      App.show_error "Export Error"
        ("Failed to export data:" +:+ App.newline +:+ msg)]).
Proof.
  intros Hfit Hch Hopen. unfold App.handle_export_csv.
  rewrite (validate_data_fit _ Hfit).
  apply truthy_str_true in Hch. rewrite Hch.
  destruct Hfit as (Hne & _).
  unfold CSVExporter.export_to_csv.
  apply truthy_true in Hne. rewrite Hne. cbn [negb]. by rewrite Hopen.
Qed.

Lemma handle_export_csv_open_error_witness :
  App.handle_export_csv posix "/ro/data.csv"
    (App.mkApp ["/in/a.png"] two_records) disk
  = (Return tt, App.mkApp ["/in/a.png"] two_records, disk,
     [App.show_save_dialog "processed_images.csv";
      App.export_to_csv two_records "/ro/data.csv";
      App.show_error "Export Error"
        ("Failed to export data:" +:+ App.newline +:+ "Permission denied")]).
Proof.
  apply (handle_export_csv_open_error posix "/ro/data.csv" "Permission denied"
           (App.mkApp ["/in/a.png"] two_records) disk).
  - exact two_records_fit.
  - discriminate.
  - reflexivity.
Defined.

(** X8. [handle_export_csv] never changes the state of the controller and
    lets no exception out, whatever the exporter raises; and when the save
    dialog is cancelled it changes no file and does not enter the
    exporter. *)
Theorem handle_export_csv_frame (rt : runtime) (chosen : string)
    (self : App.app) (fs : filesystem) :
  let r := App.handle_export_csv rt chosen self fs in
  r.1.1 = (Return tt, self)
  /\ (chosen = EmptyString ->
      r.1.2 = fs /\ forall data p, ~ In (App.export_to_csv data p) r.2).
Proof.
  unfold App.handle_export_csv.
  destruct (truthy (App.processed_data self)); cbn [negb].
  2:{ cbn. repeat split; try done. intros data p [|[]]. discriminate. }
  destruct (validate_data_decides (App.processed_data self)) as (b & -> & _).
  destruct b.
  2:{ cbn. repeat split; try done. intros data p [|[]]. discriminate. }
  destruct chosen as [|c chosen]; cbn [truthy_str negb].
  { cbn. repeat split; try done. intros data p [|[]]. discriminate. }
  destruct (CSVExporter.export_to_csv _ _ _ _) as [[[]|e] fs'];
    cbn [fst snd] in *; repeat split; try done.
Qed.

Lemma handle_export_csv_frame_witness :
  (App.handle_export_csv posix EmptyString
     (App.mkApp ["/in/a.png"] two_records) disk).1.2 = disk.
Proof.
  apply (handle_export_csv_frame posix EmptyString
           (App.mkApp ["/in/a.png"] two_records) disk). reflexivity.
Defined.

(** ** More on selection *)

Lemma validate_image_file_accepts rt fs path :
  ImageProcessor.validate_image_file rt fs path = true ->
  has_accepted_extension rt path /\ existing_file fs path.
Proof.
  unfold ImageProcessor.validate_image_file, has_accepted_extension, extension.
  rewrite andb_true_iff, bool_decide_eq_true, isfile_existing.
  rewrite valid_extensions_accepted.
  intros [Hin Hfile]. split; [|done].
  eexists; split; [exact Hin|].
  apply lower_equal_ignoring_case; [by apply accepted_no_capitals | done].
Qed.

Lemma filter_split_length {A} (f : A -> bool) l :
  (length (List.filter f l) + length (List.filter (fun x => negb (f x)) l)
   = length l)%nat.
Proof.
  induction l as [|x l IH]; [done|]. cbn [List.filter].
  destruct (f x); cbn [negb length]; lia.
Qed.

Lemma filter_sublist {A} (f : A -> bool) l : sublist (List.filter f l) l.
Proof.
  induction l as [|x l IH]; [constructor|]. cbn [List.filter].
  destruct (f x); by constructor.
Qed.

Lemma rfind_from_lower c s : forall i, 0 <= i -> -1 <= rfind_from c s i.
Proof.
  induction s as [|a s IH]; intros i Hi; cbn [rfind_from]; [lia|].
  specialize (IH (i + 1) ltac:(lia)).
  destruct (0 <=? rfind_from c s (i + 1)) eqn:H; [lia|].
  destruct (Ascii.eqb a c); lia.
Qed.

Lemma skip_leading_dots_root p dotIndex n : forall filenameIndex,
  0 <= filenameIndex ->
  (ospath.skip_leading_dots p dotIndex n filenameIndex).2 <> EmptyString ->
  (ospath.skip_leading_dots p dotIndex n filenameIndex).1 <> EmptyString.
Proof.
  induction n as [|n IH]; intros i Hi; cbn [ospath.skip_leading_dots]; [done|].
  destruct (i <? dotIndex) eqn:Hlt; [|done].
  destruct (negb _); [|apply IH; lia].
  apply Z.ltb_lt in Hlt. cbn [fst snd]. unfold slice_to, slice_from.
  destruct p as [|c p]; [by destruct (Z.to_nat dotIndex)|].
  intros _. destruct (Z.to_nat dotIndex) eqn:Hd; [lia | done].
Qed.

Lemma splitext_root sep altsep p :
  (ospath.splitext sep altsep p).2 <> EmptyString ->
  (ospath.splitext sep altsep p).1 <> EmptyString.
Proof.
  unfold ospath.splitext. destruct (_ <? _); [|done].
  apply skip_leading_dots_root.
  pose proof (rfind_from_lower sep p 0 ltac:(lia)) as H1. unfold rfind.
  destruct altsep as [a|]; lia.
Qed.

(** X9. A path that [validate_image_file] accepts is a root that is not
    empty followed by [.png], [.jpg] or [.jpeg] in any mix of cases; so a
    file named just [.png] is refused. *)
Theorem validate_image_file_suffix (rt : runtime) (fs : filesystem)
    (path : string) :
  ImageProcessor.validate_image_file rt fs path = true ->
  exists root ext e,
    path = root +:+ ext
    /\ root <> EmptyString
    /\ In e accepted_extensions
    /\ equal_ignoring_case ext e.
Proof.
  intros H. apply validate_image_file_accepts in H as [(e & Hin & Heq) _].
  unfold extension in Heq.
  exists (ospath.splitext (sep rt) (altsep rt) path).1,
         (ospath.splitext (sep rt) (altsep rt) path).2, e.
  split; [symmetry; apply splitext_join|]. split; [|done].
  apply splitext_root. intros Hext. rewrite Hext in Heq.
  simpl in Hin. destruct Hin as [<- | [<- | [<- | []]]]; exact Heq.
Qed.

Lemma validate_image_file_suffix_witness :
  exists root ext e,
    "/in/b.JPG" = root +:+ ext
    /\ root <> EmptyString
    /\ In e accepted_extensions
    /\ equal_ignoring_case ext e.
Proof.
  apply (validate_image_file_suffix posix disk "/in/b.JPG"). reflexivity.
Defined.

(** X10. [handle_select_files] shows the warning for invalid files exactly
    when the validator refuses some path of the dialog, and the number in
    it is the number of paths refused. *)
Theorem handle_select_files_skipped (rt : runtime) (files : list string)
    (fs : filesystem) (self : App.app) :
  let r := App.handle_select_files rt files fs self in
  let k := length (refused rt fs files) in
  (k = 0%nat -> forall m, ~ In ("Invalid Files", m) (warnings r.2))
  /\ (k <> 0%nat ->
      In ("Invalid Files",
          str_nat k +:+ " file(s) were skipped (not valid image files)")
         (warnings r.2)).
Proof.
  intros r k. subst r k. unfold App.handle_select_files, refused.
  destruct files as [|f files]; [cbn; split; [intros _ m [] | done]|].
  pose proof (filter_split_length (ImageProcessor.validate_image_file rt fs)
                (f :: files)) as Hlen.
  remember (List.filter (ImageProcessor.validate_image_file rt fs) (f :: files))
    as valid eqn:Hvalid.
  remember (List.filter (fun f0 => negb (ImageProcessor.validate_image_file rt fs f0))
              (f :: files)) as bad eqn:Hbad.
  clear Hvalid Hbad.
  cbn [truthy].
  destruct (length valid =? length (f :: files))%nat eqn:Heq; cbn [negb].
  - apply Nat.eqb_eq in Heq. assert (Hk : length bad = 0%nat) by lia.
    split; [intros _ m | by rewrite Hk].
    destruct (truthy valid); cbn; intuition discriminate.
  - apply Nat.eqb_neq in Heq.
    assert (Hk : (length (f :: files) - length valid = length bad)%nat) by lia.
    rewrite Hk. split; [lia|]. intros _.
    destruct (truthy valid); cbn; by left.
Qed.

Lemma handle_select_files_skipped_witness :
  In ("Invalid Files", "1 file(s) were skipped (not valid image files)")
     (warnings (App.handle_select_files posix
                  ["/in/a.png"; "/in/notes.txt"; "/in/b.JPG"] disk App.init).2).
Proof.
  apply (handle_select_files_skipped posix
           ["/in/a.png"; "/in/notes.txt"; "/in/b.JPG"] disk App.init).
  vm_compute. discriminate.
Defined.

(** The selection after [handle_select_files]: untouched, or the paths
    of the dialog that pass the validator. *)
Lemma handle_select_files_valid rt files fs self :
  let r := App.handle_select_files rt files fs self in
  r.1 = self
  \/ Forall (fun p => has_accepted_extension rt p /\ existing_file fs p)
            (App.selected_files r.1).
Proof.
  intros r. subst r. unfold App.handle_select_files.
  destruct (truthy files); [|by left].
  destruct (List.filter (ImageProcessor.validate_image_file rt fs) files)
    as [|p valid] eqn:Hv; cbn [truthy]; [by left|].
  right. cbn [fst App.selected_files].
  apply Forall_forall. intros q Hq. apply validate_image_file_accepts.
  apply list_elem_of_In in Hq. rewrite <- Hv in Hq.
  by apply filter_In in Hq as [_ ?].
Qed.

(** X11. [handle_select_files] leaves the state as it was, or makes a
    selection that is not empty, keeps the order of the dialog, holds only
    paths with an accepted extension that are files, comes with an empty
    batch, and together with the refused paths accounts for every path of
    the dialog. *)
Theorem handle_select_files_selects_valid (rt : runtime) (files : list string)
    (fs : filesystem) (self : App.app) :
  let r := App.handle_select_files rt files fs self in
  r.1 = self
  \/ (App.selected_files r.1 <> []
      /\ sublist (App.selected_files r.1) files
      /\ Forall (fun p => has_accepted_extension rt p /\ existing_file fs p)
                (App.selected_files r.1)
      /\ App.processed_data r.1 = []
      /\ (length (App.selected_files r.1) + length (refused rt fs files)
          = length files)%nat).
Proof.
  intros r. subst r. unfold App.handle_select_files, refused.
  destruct (truthy files); [|by left].
  pose proof (filter_split_length (ImageProcessor.validate_image_file rt fs) files)
    as Hlen.
  destruct (List.filter (ImageProcessor.validate_image_file rt fs) files)
    as [|p valid] eqn:Hv; cbn [truthy]; [by left|].
  right. cbn [fst App.selected_files App.processed_data].
  split; [done|]. split; [rewrite <- Hv; apply filter_sublist|].
  split; [|done].
  apply Forall_forall. intros q Hq. apply validate_image_file_accepts.
  apply list_elem_of_In in Hq. rewrite <- Hv in Hq.
  by apply filter_In in Hq as [_ ?].
Qed.

(** ** More on the processing run *)

Lemma successes_nil l :
  successes l = [] <-> Forall (fun a => exists e, a.2 = Raise e) l.
Proof.
  unfold successes. induction l as [|[p [o|e]] l IH]; cbn.
  - split; [constructor | done].
  - split; [discriminate|]. intros H. inversion H as [|? ? [e He] _]; subst.
    discriminate.
  - rewrite IH. split; [intros H; constructor; [by eexists | done]|].
    intros H. by inversion H.
Qed.

Section RunMore.

Variable rt : runtime.
Context {World : Type}.
Variable processor : string -> World -> result pyobj * World.

(** The calls of the loop are status lines, attempts, error boxes and
    progress reports. *)
Lemma process_loop_calls total files : forall idx data w c,
  In c (App.process_loop rt processor total idx files data w).2 ->
  (exists m, c = App.update_status m)
  \/ (exists p, c = App.process_image p)
  \/ (exists t m, c = App.show_error t m)
  \/ (exists i, c = App.update_progress i).
Proof.
  induction files as [|p files IH]; intros idx data w c; [intros []|].
  cbn [App.process_loop].
  destruct (processor p w) as [[o|e] w1].
  - specialize (IH (S idx) (data ++ [o]) w1 c).
    destruct (App.process_loop rt processor total (S idx) files (data ++ [o]) w1)
      as [[data' w'] calls].
    cbn. intros [<- | [<- | [<- | Hin]]]; eauto 8.
  - specialize (IH (S idx) data w1 c).
    destruct (App.process_loop rt processor total (S idx) files data w1)
      as [[data' w'] calls].
    cbn. intros [<- | [<- | [<- | [<- | Hin]]]]; eauto 8.
Qed.

(** X12. A run of [handle_process_images] ends with the status line for a
    failed run, and without enabling the export button, exactly when every
    attempt raised; otherwise it ends by enabling the export button and
    telling the number of records in the status line and in the success
    box. *)
Theorem handle_process_images_summary (self : App.app) (w : World) :
  App.selected_files self <> [] ->
  let r := App.handle_process_images rt processor self w in
  let batch := App.processed_data r.1.1 in
  (batch = []
   <-> Forall (fun a => exists e, a.2 = Raise e)
              (attempts processor (App.selected_files self) w))
  /\ (batch = [] ->
      exists pre,
        r.2 = pre ++ [App.update_status "Processing failed - no data extracted."]
        /\ ~ In (App.enable_button "export") r.2)
  /\ (batch <> [] ->
      exists pre,
        r.2 = pre ++
          [App.enable_button "export";
           App.update_status ("Processing complete! "
                              +:+ str_nat (length batch)
                              +:+ " images processed.");
           App.show_info "Success"
             ("Successfully processed " +:+ str_nat (length batch)
              +:+ " images!")]).
Proof.
  intros Hne r batch.
  destruct (handle_process_images_run rt processor self w Hne)
    as (_ & Hdata & _).
  fold r in Hdata. fold batch in Hdata.
  split; [rewrite Hdata; apply successes_nil|].
  subst batch r. unfold App.handle_process_images in *.
  destruct (App.selected_files self) as [|p files] eqn:Hsel; [done|].
  cbn [truthy negb] in *.
  pose proof (process_loop_calls (length (p :: files)) (p :: files) 1 [] w)
    as Hcalls.
  destruct (App.process_loop rt processor (length (p :: files)) 1 (p :: files) [] w)
    as [[data w'] looped].
  cbn [fst snd App.processed_data] in *.
  split.
  - intros ->. cbn [truthy]. eexists. split.
    + rewrite !app_assoc. reflexivity.
    + intros Hin. cbn in Hin.
      destruct Hin as [|[|[|[|Hin]]]]; try discriminate.
      apply in_app_or in Hin as [Hin | Hin].
      * destruct (Hcalls _ Hin) as [[? ?] | [[? ?] | [(? & ? & ?) | [? ?]]]];
          discriminate.
      * cbn in Hin. intuition discriminate.
  - intros Hd. destruct data as [|o data]; [done|]. cbn [truthy].
    eexists. rewrite !app_assoc. reflexivity.
Qed.

End RunMore.

Lemma handle_process_images_summary_witness :
  let r := App.handle_process_images posix flaky
             (App.mkApp ["/in/b.JPG"] []) 0%nat in
  exists pre,
    r.2 = pre ++ [App.update_status "Processing failed - no data extracted."]
    /\ ~ In (App.enable_button "export") r.2.
Proof.
  apply (handle_process_images_summary posix flaky
           (App.mkApp ["/in/b.JPG"] []) 0%nat); [discriminate | reflexivity].
Defined.

(** ** The widgets *)

Lemma render_app rt tr1 tr2 ui :
  UI.render rt (tr1 ++ tr2) ui = UI.render rt tr2 (UI.render rt tr1 ui).
Proof. apply fold_left_app. Qed.

Lemma listbox_fold rt file_paths : forall box,
  fold_left (fun box file_path => box ++ [basename rt file_path]) file_paths box
  = box ++ map (basename rt) file_paths.
Proof.
  induction file_paths as [|p ps IH]; intros box; cbn [fold_left map].
  - by rewrite app_nil_r.
  - by rewrite IH, <- app_assoc.
Qed.

Lemma update_file_list_map rt file_paths w :
  UI.update_file_list rt file_paths w
  = UI.mkWidgets (UI.select_btn w) (UI.process_btn w) (UI.export_btn w)
      (map (basename rt) file_paths)
      (str_nat (length file_paths) +:+ " file"
       +:+ (if negb (length file_paths =? 1)%nat then "s" else EmptyString)
       +:+ " selected")
      (UI.progress_maximum w) (UI.progress_value w) (UI.status_label w).
Proof. unfold UI.update_file_list. by rewrite listbox_fold. Qed.

Section Widgets.

Variable rt : runtime.
Context {World : Type}.
Variable processor : string -> World -> result pyobj * World.

(** The loop only moves the status line and the progress bar. *)
Lemma render_process_loop total files : forall idx data w ui,
  exists s,
    UI.render rt (App.process_loop rt processor total idx files data w).2 ui
    = UI.mkWidgets (UI.select_btn ui) (UI.process_btn ui) (UI.export_btn ui)
        (UI.file_listbox ui) (UI.file_count_label ui) (UI.progress_maximum ui)
        (match files with
         | [] => UI.progress_value ui
         | _ :: _ => idx + length files - 1
         end)%nat
        s.
Proof.
  induction files as [|p files IH]; intros idx data w ui.
  - exists (UI.status_label ui). by destruct ui.
  - cbn [App.process_loop].
    set (ui1 := UI.update_progress idx
                  (UI.update_status
                     ("Processing " +:+ str_nat idx +:+ "/" +:+ str_nat total
                      +:+ ": " +:+ basename rt p) ui)).
    destruct (processor p w) as [[o|e] w1].
    + destruct (IH (S idx) (data ++ [o]) w1 ui1) as [s Hs]. exists s.
      destruct (App.process_loop rt processor total (S idx) files _ w1)
        as [[d2 w2] calls].
      cbn [snd app UI.render fold_left UI.run] in *. fold ui1. rewrite Hs.
      subst ui1. cbn. f_equal. destruct files; cbn [length]; lia.
    + destruct (IH (S idx) data w1 ui1) as [s Hs]. exists s.
      destruct (App.process_loop rt processor total (S idx) files _ w1)
        as [[d2 w2] calls].
      cbn [snd app UI.render fold_left UI.run] in *. fold ui1. rewrite Hs.
      subst ui1. cbn. f_equal. destruct files; cbn [length]; lia.
Qed.

(** What a processing run leaves in the widgets. *)
Lemma render_handle_process_images (self : App.app) (w : World)
    (ui : UI.widgets) :
  App.selected_files self <> [] ->
  let r := App.handle_process_images rt processor self w in
  let n := length (App.selected_files self) in
  exists s,
    UI.render rt r.2 ui
    = UI.mkWidgets UI.NORMAL UI.NORMAL
        (if truthy (App.processed_data r.1.1) then UI.NORMAL else UI.DISABLED)
        (UI.file_listbox ui) (UI.file_count_label ui) n n s.
Proof.
  intros Hne r n. subst r n. unfold App.handle_process_images.
  destruct (App.selected_files self) as [|p files] eqn:Hsel; [done|].
  cbn [truthy negb].
  set (ui0 := UI.render rt
                [App.setup_progress_bar (length (p :: files));
                 App.disable_button "process"; App.disable_button "select";
                 App.disable_button "export"] ui).
  destruct (render_process_loop (length (p :: files)) (p :: files) 1 [] w ui0)
    as [s Hs].
  destruct (App.process_loop rt processor (length (p :: files)) 1 (p :: files) [] w)
    as [[data w'] looped].
  cbn [fst snd App.processed_data] in *.
  rewrite render_app. fold ui0. rewrite render_app, Hs.
  subst ui0. destruct data as [|o data]; cbn; eexists; f_equal; lia.
Qed.

(** What a selection leaves in the widgets. *)
Lemma render_handle_select_files (files : list string) (fs : filesystem)
    (self : App.app) (ui : UI.widgets) :
  let r := App.handle_select_files rt files fs self in
  (r.1 = self /\ UI.render rt r.2 ui = ui)
  \/ (App.selected_files r.1 <> [] /\ App.processed_data r.1 = []
      /\ UI.render rt r.2 ui
         = UI.mkWidgets (UI.select_btn ui) UI.NORMAL UI.DISABLED
             (map (basename rt) (App.selected_files r.1))
             (str_nat (length (App.selected_files r.1)) +:+ " file"
              +:+ (if negb (length (App.selected_files r.1) =? 1)%nat
                   then "s" else EmptyString)
              +:+ " selected")
             (UI.progress_maximum ui) (UI.progress_value ui)
             (str_nat (length (App.selected_files r.1)) +:+ " files selected")).
Proof.
  intros r. subst r. unfold App.handle_select_files.
  destruct (truthy files); [|left; by destruct ui].
  destruct (List.filter _ files) as [|p valid]; cbn [truthy].
  - left. split; [done|].
    destruct (negb _); by destruct ui.
  - right. cbn [fst snd App.selected_files App.processed_data].
    split; [done|]. split; [done|].
    destruct (negb _); cbn [app UI.render fold_left UI.run];
      rewrite update_file_list_map; by destruct ui.
Qed.

End Widgets.

(** What an export leaves in the widgets: all but the status line. *)
Lemma render_handle_export_csv rt chosen self fs ui :
  exists s,
    UI.render rt (App.handle_export_csv rt chosen self fs).2 ui
    = UI.mkWidgets (UI.select_btn ui) (UI.process_btn ui) (UI.export_btn ui)
        (UI.file_listbox ui) (UI.file_count_label ui) (UI.progress_maximum ui)
        (UI.progress_value ui) s.
Proof.
  unfold App.handle_export_csv. destruct ui.
  destruct (truthy (App.processed_data self)); cbn [negb]; [|by eexists].
  destruct (CSVExporter.validate_data _) as [[|]|e]; [|by eexists..].
  destruct (truthy_str chosen); cbn [negb]; [|by eexists].
  destruct (CSVExporter.export_to_csv _ _ _ _) as [[[]|e] fs']; by eexists.
Qed.

Section ProgressBar.

Variable rt : runtime.
Context {World : Type}.
Variable processor : string -> World -> result pyobj * World.

(** X13. After a run of [handle_process_images] on a selection that is not
    empty the progress bar is full, its value and its maximum being the
    number of selected paths; the select and process buttons are active; the
    export button is active exactly when the batch is not empty; and the
    list box is as before. *)
Theorem handle_process_images_progress (self : App.app) (w : World)
    (ui : UI.widgets) :
  App.selected_files self <> [] ->
  let r := App.handle_process_images rt processor self w in
  let n := length (App.selected_files self) in
  UI.progress_maximum (UI.render rt r.2 ui) = n
  /\ UI.progress_value (UI.render rt r.2 ui) = n
  /\ UI.select_btn (UI.render rt r.2 ui) = UI.NORMAL
  /\ UI.process_btn (UI.render rt r.2 ui) = UI.NORMAL
  /\ (UI.export_btn (UI.render rt r.2 ui) = UI.NORMAL
      <-> App.processed_data r.1.1 <> [])
  /\ UI.file_listbox (UI.render rt r.2 ui) = UI.file_listbox ui.
Proof.
  intros Hne r n.
  destruct (render_handle_process_images rt processor self w ui Hne) as [s Hs].
  fold r n in Hs. rewrite Hs. cbn. repeat split; try done;
    destruct (App.processed_data r.1.1); cbn; done.
Qed.

End ProgressBar.

Lemma handle_process_images_progress_witness :
  let r := App.handle_process_images posix flaky
             (App.mkApp ["/in/a.png"; "/in/b.JPG"] []) 0%nat in
  UI.progress_maximum (UI.render posix r.2 UI.created) = 2%nat
  /\ UI.progress_value (UI.render posix r.2 UI.created) = 2%nat
  /\ UI.select_btn (UI.render posix r.2 UI.created) = UI.NORMAL
  /\ UI.process_btn (UI.render posix r.2 UI.created) = UI.NORMAL
  /\ (UI.export_btn (UI.render posix r.2 UI.created) = UI.NORMAL
      <-> App.processed_data r.1.1 <> [])
  /\ UI.file_listbox (UI.render posix r.2 UI.created) = [].
Proof.
  apply (handle_process_images_progress posix flaky
           (App.mkApp ["/in/a.png"; "/in/b.JPG"] []) 0%nat UI.created).
  discriminate.
Defined.

(** ** The application at work *)

Section SessionFacts.

Variable rt : runtime.
Context {World : Type}.
Variable processor : string -> World -> result pyobj * World.

(** What holds between two clicks. *)
Lemma reachable_invariant s :
  Session.reachable rt processor s ->
  UI.select_btn (Session.ui s) = UI.NORMAL
  /\ (UI.process_btn (Session.ui s) = UI.NORMAL
      <-> App.selected_files (Session.app s) <> [])
  /\ (UI.export_btn (Session.ui s) = UI.NORMAL
      <-> App.processed_data (Session.app s) <> [])
  /\ UI.file_listbox (Session.ui s)
     = map (basename rt) (App.selected_files (Session.app s))
  /\ Forall (has_accepted_extension rt) (App.selected_files (Session.app s))
  /\ (App.selected_files (Session.app s) = []
      /\ UI.file_count_label (Session.ui s) = "No files selected"
      \/ UI.file_count_label (Session.ui s)
         = str_nat (length (App.selected_files (Session.app s))) +:+ " file"
           +:+ (if negb (length (App.selected_files (Session.app s)) =? 1)%nat
                then "s" else EmptyString)
           +:+ " selected").
Proof.
  induction 1 as [|files fs s Hs IH|w s Hs IH|chosen fs s Hs IH].
  - cbn. repeat split; try done. by left.
  - destruct IH as (Hsel & Hproc & Hexp & Hbox & Hext & Hlabel).
    unfold Session.click_select. rewrite Hsel.
    pose proof (render_handle_select_files rt files fs (Session.app s)
                  (Session.ui s)) as Hr.
    pose proof (handle_select_files_valid rt files fs (Session.app s)) as Hv.
    destruct (App.handle_select_files rt files fs (Session.app s)) as [a tr].
    cbn [fst snd Session.app Session.ui] in *.
    destruct Hr as [[-> ->] | (Hne & Hdata & ->)]; [done|].
    cbn [UI.select_btn UI.process_btn UI.export_btn UI.file_listbox
         UI.file_count_label].
    rewrite Hdata. repeat split; try done.
    + destruct Hv as [-> | Hv]; [done|].
      eapply Forall_impl; [exact Hv|]. by intros p [? _].
    + by right.
  - destruct IH as (Hsel & Hproc & Hexp & Hbox & Hext & Hlabel).
    unfold Session.click_process.
    destruct (UI.process_btn (Session.ui s)) eqn:Hbtn; [|cbn; by rewrite Hbtn].
    assert (Hne : App.selected_files (Session.app s) <> []) by by apply Hproc.
    pose proof (render_handle_process_images rt processor (Session.app s) w
                  (Session.ui s) Hne) as [st Hr].
    pose proof (handle_process_images_run rt processor (Session.app s) w Hne)
      as (Hsame & _).
    destruct (App.handle_process_images rt processor (Session.app s) w)
      as [[a w'] tr].
    cbn [fst snd Session.app Session.ui] in *. rewrite Hr, Hsame.
    cbn [UI.select_btn UI.process_btn UI.export_btn UI.file_listbox
         UI.file_count_label].
    repeat split; try done; destruct (App.processed_data a); cbn; done.
  - destruct IH as (Hsel & Hproc & Hexp & Hbox & Hext & Hlabel).
    unfold Session.click_export.
    destruct (UI.export_btn (Session.ui s)) eqn:Hbtn; [|cbn; by rewrite Hbtn].
    pose proof (render_handle_export_csv rt chosen (Session.app s) fs
                  (Session.ui s)) as [st Hr].
    pose proof (handle_export_csv_state rt chosen (Session.app s) fs) as Hst.
    destruct (App.handle_export_csv rt chosen (Session.app s) fs)
      as [[[res a] fs'] tr].
    cbn [fst snd Session.app Session.ui] in *. injection Hst as _ ->.
    rewrite Hr.
    cbn [UI.select_btn UI.process_btn UI.export_btn UI.file_listbox
         UI.file_count_label].
    by rewrite ?Hbtn.
Qed.

End SessionFacts.

Section SessionMore.

Variable rt : runtime.
Context {World : Type}.
Variable processor : string -> World -> result pyobj * World.

Lemma handle_process_images_no_warning self w t m :
  App.selected_files self <> [] ->
  ~ In (App.show_warning t m) (App.handle_process_images rt processor self w).2.
Proof.
  intros Hne. unfold App.handle_process_images.
  destruct (App.selected_files self) as [|p files] eqn:Hsel; [done|].
  cbn [truthy negb].
  pose proof (process_loop_calls rt processor (length (p :: files)) (p :: files)
                1 [] w) as Hcalls.
  destruct (App.process_loop rt processor (length (p :: files)) 1 (p :: files) [] w)
    as [[data w'] looped].
  cbn [snd] in *. intros Hin. cbn in Hin.
  destruct Hin as [|[|[|[|Hin]]]]; try discriminate.
  apply in_app_or in Hin as [Hin | Hin].
  - destruct (Hcalls _ Hin) as [[? ?] | [[? ?] | [(? & ? & ?) | [? ?]]]];
      discriminate.
  - destruct (truthy data); cbn in Hin; intuition discriminate.
Qed.

Lemma handle_export_csv_no_warning chosen self fs t m :
  App.processed_data self <> [] ->
  ~ In (App.show_warning t m) (App.handle_export_csv rt chosen self fs).2.
Proof.
  intros Hne. unfold App.handle_export_csv.
  apply truthy_true in Hne. rewrite Hne. cbn [negb].
  destruct (CSVExporter.validate_data _) as [[|]|e];
    [|cbn; intuition discriminate..].
  destruct (truthy_str chosen); cbn [negb]; [|cbn; intuition discriminate].
  destruct (CSVExporter.export_to_csv _ _ _ _) as [[[]|e] fs'];
    cbn; intuition discriminate.
Qed.

(** X14. Between two clicks the select button is active, the process
    button is active exactly when the selection is not empty, and the export
    button is active exactly when the batch is not empty. *)
Theorem buttons_follow_state (s : Session.system) :
  Session.reachable rt processor s ->
  UI.select_btn (Session.ui s) = UI.NORMAL
  /\ (UI.process_btn (Session.ui s) = UI.NORMAL
      <-> App.selected_files (Session.app s) <> [])
  /\ (UI.export_btn (Session.ui s) = UI.NORMAL
      <-> App.processed_data (Session.app s) <> []).
Proof.
  intros H. by destruct (reachable_invariant rt processor s H) as (? & ? & ? & _).
Qed.

(** X15. Between two clicks the list box shows the base names of the
    selected paths, in order, and the label beside it tells their number
    (or that no file is selected, before the first selection). *)
Theorem listbox_shows_selection (s : Session.system) :
  Session.reachable rt processor s ->
  UI.file_listbox (Session.ui s)
  = map (basename rt) (App.selected_files (Session.app s))
  /\ (App.selected_files (Session.app s) = []
      /\ UI.file_count_label (Session.ui s) = "No files selected"
      \/ UI.file_count_label (Session.ui s)
         = str_nat (length (App.selected_files (Session.app s))) +:+ " file"
           +:+ (if negb (length (App.selected_files (Session.app s)) =? 1)%nat
                then "s" else EmptyString)
           +:+ " selected").
Proof.
  intros H.
  by destruct (reachable_invariant rt processor s H) as (_ & _ & _ & ? & _ & ?).
Qed.

(** X16. Every path that is ever in the selection has an accepted
    extension. *)
Theorem selection_has_image_extensions (s : Session.system) :
  Session.reachable rt processor s ->
  Forall (has_accepted_extension rt) (App.selected_files (Session.app s)).
Proof.
  intros H.
  by destruct (reachable_invariant rt processor s H) as (_ & _ & _ & _ & ? & _).
Qed.

(** X17. Through the buttons, processing and export never show a warning:
    the button that would run [handle_process_images] on an empty selection,
    or [handle_export_csv] on an empty batch, is not active then. *)
Theorem clicks_never_warn_of_missing_input (s : Session.system) :
  Session.reachable rt processor s ->
  (forall w t m,
     ~ In (App.show_warning t m) (Session.click_process rt processor w s).2)
  /\ (forall chosen fs t m,
        ~ In (App.show_warning t m) (Session.click_export rt chosen fs s).2).
Proof.
  intros H.
  destruct (reachable_invariant rt processor s H) as (_ & Hproc & Hexp & _).
  split.
  - intros w t m. unfold Session.click_process.
    destruct (UI.process_btn (Session.ui s)); [|intros []].
    pose proof (handle_process_images_no_warning (Session.app s) w t m
                  ltac:(by apply Hproc)) as Hn.
    by destruct (App.handle_process_images rt processor (Session.app s) w)
      as [[a w'] tr].
  - intros chosen fs t m. unfold Session.click_export.
    destruct (UI.export_btn (Session.ui s)); [|intros []].
    pose proof (handle_export_csv_no_warning chosen (Session.app s) fs t m
                  ltac:(by apply Hexp)) as Hn.
    by destruct (App.handle_export_csv rt chosen (Session.app s) fs)
      as [[[res a] fs'] tr].
Qed.

End SessionMore.

Lemma desk_processed_reachable : Session.reachable posix flaky desk_processed.
Proof. apply Session.reach_process, Session.reach_select, Session.reach_boot. Qed.

Lemma buttons_follow_state_witness :
  UI.select_btn (Session.ui desk_processed) = UI.NORMAL
  /\ (UI.process_btn (Session.ui desk_processed) = UI.NORMAL
      <-> App.selected_files (Session.app desk_processed) <> [])
  /\ (UI.export_btn (Session.ui desk_processed) = UI.NORMAL
      <-> App.processed_data (Session.app desk_processed) <> []).
Proof.
  apply (buttons_follow_state posix flaky desk_processed).
  exact desk_processed_reachable.
Defined.

Lemma listbox_shows_selection_witness :
  UI.file_listbox (Session.ui desk_processed) = ["a.png"; "b.JPG"]
  /\ (App.selected_files (Session.app desk_processed) = []
      /\ UI.file_count_label (Session.ui desk_processed) = "No files selected"
      \/ UI.file_count_label (Session.ui desk_processed) = "2 files selected").
Proof.
  apply (listbox_shows_selection posix flaky desk_processed).
  exact desk_processed_reachable.
Defined.

Lemma selection_has_image_extensions_witness :
  Forall (has_accepted_extension posix) ["/in/a.png"; "/in/b.JPG"].
Proof.
  apply (selection_has_image_extensions posix flaky desk_processed).
  exact desk_processed_reachable.
Defined.

Lemma clicks_never_warn_of_missing_input_witness :
  (forall w t m,
     ~ In (App.show_warning t m)
          (Session.click_process posix flaky w Session.boot).2)
  /\ (forall chosen fs t m,
        ~ In (App.show_warning t m)
             (Session.click_export posix chosen fs desk_processed).2).
Proof.
  split.
  - apply (clicks_never_warn_of_missing_input posix flaky Session.boot).
    apply Session.reach_boot.
  - apply (clicks_never_warn_of_missing_input posix flaky desk_processed).
    exact desk_processed_reachable.
Defined.

(** ** The mock processor in the pipeline *)








(** With the mock processor the batch is empty or fit for export, between
    any two clicks. *)
Lemma reachable_mock_batch rt s :
  Session.reachable rt (ImageProcessor.process_image rt) s ->
  App.processed_data (Session.app s) = []
  \/ fit_for_export (App.processed_data (Session.app s)).
Proof.
  induction 1 as [|files fs s Hs IH|w s Hs IH|chosen fs s Hs IH].
  - by left.
  - unfold Session.click_select.
    destruct (UI.select_btn (Session.ui s)); [|exact IH].
    pose proof (render_handle_select_files rt files fs (Session.app s)
                  (Session.ui s)) as Hr.
    destruct (App.handle_select_files rt files fs (Session.app s)) as [a tr].
    cbn [fst snd Session.app] in *.
    destruct Hr as [[-> _] | (_ & -> & _)]; [exact IH | by left].
  - pose proof (reachable_invariant rt _ s Hs) as (_ & Hproc & _).
    unfold Session.click_process.
    destruct (UI.process_btn (Session.ui s)); [|exact IH].
    assert (Hne : App.selected_files (Session.app s) <> []) by by apply Hproc.
    pose proof (mock_batch_fit rt (Session.app s) w Hne) as Hfit.
    destruct (App.handle_process_images rt _ (Session.app s) w) as [[a w'] tr].
    cbn [fst snd Session.app] in *.
    destruct (App.processed_data a) as [|o data] eqn:Hd; [by left|].
    right. by apply Hfit.
  - unfold Session.click_export.
    destruct (UI.export_btn (Session.ui s)); [|exact IH].
    pose proof (handle_export_csv_state rt chosen (Session.app s) fs) as Hst.
    destruct (App.handle_export_csv rt chosen (Session.app s) fs)
      as [[[res a] fs'] tr].
    cbn [fst snd Session.app] in *. by injection Hst as _ ->.
Qed.

(** X19. With the mock processor, between two clicks a batch that is not
    empty passes [validate_data], and a click on export never shows the
    error for invalid data. *)
Theorem mock_batch_always_exportable (rt : runtime) (s : Session.system) :
  Session.reachable rt (ImageProcessor.process_image rt) s ->
  (App.processed_data (Session.app s) <> [] ->
   CSVExporter.validate_data (App.processed_data (Session.app s)) = Return true)
  /\ forall chosen fs m,
       ~ In (App.show_error "Invalid Data" m)
            (Session.click_export rt chosen fs s).2.
Proof.
  intros Hs. pose proof (reachable_mock_batch rt s Hs) as Hb.
  split.
  - intros Hne. destruct Hb as [? | Hfit]; [done|]. by apply validate_data_fit.
  - intros chosen fs m. unfold Session.click_export.
    destruct (UI.export_btn (Session.ui s)); [|intros []].
    assert (Hn : ~ In (App.show_error "Invalid Data" m)
                      (App.handle_export_csv rt chosen (Session.app s) fs).2).
    { unfold App.handle_export_csv. destruct Hb as [-> | Hfit].
      - cbn. intuition discriminate.
      - rewrite (validate_data_fit _ Hfit).
        destruct (negb (truthy _)); [cbn; intuition discriminate|].
        destruct (truthy_str chosen); cbn [negb]; [|cbn; intuition discriminate].
        destruct (CSVExporter.export_to_csv _ _ _ _) as [[[]|e] fs'];
          cbn; intuition discriminate. }
    by destruct (App.handle_export_csv rt chosen (Session.app s) fs)
      as [[[res a] fs'] tr].
Qed.

Lemma mock_batch_always_exportable_witness :
  CSVExporter.validate_data (App.processed_data (Session.app studio_processed))
  = Return true.
Proof.
  apply (mock_batch_always_exportable posix studio_processed).
  - apply Session.reach_process, Session.reach_select, Session.reach_boot.
  - vm_compute. discriminate.
Defined.

(** ** Order of the records, and exporting again *)

Lemma fit_for_export_permutation data data' :
  Permutation data data' -> fit_for_export data -> fit_for_export data'.
Proof.
  intros Hp (Hne & Hd & Hk). split; [|split].
  - intros ->. apply Permutation_sym, Permutation_nil in Hp. done.
  - intros o Ho. apply Hd. by apply (Permutation_in _ (Permutation_sym Hp)).
  - intros d1 d2 H1 H2.
    apply Hk; by apply (Permutation_in _ (Permutation_sym Hp)).
Qed.

(** X20. [validate_data] does not depend on the order of the records:
    on a list and on any rearrangement of it, it returns the same. *)
Theorem validate_data_permutation (data data' : list pyobj) :
  Permutation data data' ->
  CSVExporter.validate_data data = CSVExporter.validate_data data'.
Proof.
  intros Hp.
  destruct (validate_data_decides data) as (b & -> & Hb).
  destruct (validate_data_decides data') as (b' & -> & Hb').
  f_equal. destruct b, b'; try done.
  - symmetry. apply Hb'. apply (fit_for_export_permutation data); [done|].
    by apply Hb.
  - apply Hb. apply (fit_for_export_permutation data'); [|by apply Hb'].
    by apply Permutation_sym.
Qed.

Lemma validate_data_permutation_witness :
  CSVExporter.validate_data two_records
  = CSVExporter.validate_data (rev two_records).
Proof.
  apply (validate_data_permutation two_records (rev two_records)).
  apply Permutation_rev.
Defined.

